(** * fintrix-shopify-server: order/payment correlation and reconciliation

    A shallow embedding of [src/index.js] and the properties of its
    reference generator, in-memory correlation maps, webhook verifiers and
    request handlers.

    [src/index.js] holds two versions of the server one after the other.
    Lines 1-201 are the current one (its comments mark the handlers as
    FIXED); it is embedded at top level.  Lines 203-395 are the earlier
    version; the parts of it that differ and matter here are embedded in
    [Module Legacy]. *)

From Stdlib Require Import ZArith NArith Strings.String Strings.Ascii.
From Stdlib Require Import Numbers.DecimalString Numbers.DecimalN Numbers.DecimalZ.
From Stdlib Require Import Numbers.DecimalPos Numbers.DecimalFacts.
From stdpp Require Import gmap strings list.

Local Open Scope string_scope.

(** ** JavaScript values

    The handlers read fields of parsed JSON bodies and of the gateway's
    reply.  What the code does with such a field only depends on whether it
    is a string, on its truthiness, and (for [order.id]) on [toString()], so
    scalar JSON values are enough; numbers are the integers.  [JUndef] is a
    field that is absent. *)

Inductive jsval : Type :=
| JUndef
| JNull
| JBool (b : bool)
| JNum (z : Z)
| JStr (s : string).

#[global] Instance jsval_eq_dec : EqDecision jsval.
Proof. solve_decision. Defined.

(** [if (v)], [!v], [a || b]. *)
Definition truthy (v : jsval) : bool :=
  match v with
  | JUndef | JNull => false
  | JBool b => b
  | JNum z => negb (z =? 0)%Z
  | JStr s => negb (s =? "")
  end.

Definition js_or (a b : jsval) : jsval := if truthy a then a else b.

(** [v === 'lit'] and [v === true]. *)
Definition strict_eq_str (v : jsval) (lit : string) : bool :=
  match v with
  | JStr s => s =? lit
  | _ => false
  end.

Definition strict_eq_true (v : jsval) : bool :=
  match v with
  | JBool true => true
  | _ => false
  end.

(** Decimal rendering of a number in a string concatenation.  [Date.now()]
    is a count of milliseconds, rendered with its decimal digits. *)
Definition dec (n : N) : string := NilZero.string_of_uint (N.to_uint n).

Definition dec_Z (z : Z) : string := NilZero.string_of_int (Z.to_int z).

(** [v.toString()]; [None] is the TypeError of calling it on [undefined]
    or [null]. *)
Definition toString (v : jsval) : option string :=
  match v with
  | JUndef | JNull => None
  | JBool true => Some "true"
  | JBool false => Some "false"
  | JNum z => Some (dec_Z z)
  | JStr s => Some s
  end.

(** ** Reference generator (index.js:74)

    [const refId = 'LIK' + orderId + Date.now();] *)
Definition refId (orderId : string) (now : N) : string :=
  ("LIK" +:+ orderId) +:+ dec now.

(** ** Extraction of the order id (index.js:131-132)

    [order_id.match(/LIK(\d+)/)]: the leftmost position at which [LIK] is
    followed by a digit; group 1 is the longest run of digits there. *)
Definition is_digit (c : ascii) : bool :=
  (48 <=? nat_of_ascii c)%nat && (nat_of_ascii c <=? 57)%nat.

Fixpoint take_digits (s : string) : string :=
  match s with
  | String c s' => if is_digit c then String c (take_digits s') else ""
  | EmptyString => ""
  end.

(** The pattern tried at the start of [s]. *)
Definition match_LIK_here (s : string) : option string :=
  match s with
  | String "L" (String "I" (String "K" rest)) =>
      match take_digits rest with
      | EmptyString => None
      | d => Some d
      end
  | _ => None
  end.

(** The pattern tried at every position, left to right. *)
Fixpoint match_LIK (s : string) : option string :=
  match match_LIK_here s with
  | Some d => Some d
  | None =>
      match s with
      | String _ s' => match_LIK s'
      | EmptyString => None
      end
  end.

(** [status.toUpperCase()], on strings held as their UTF-8 bytes.  The
    letters a-z are shifted.  Of the characters outside ASCII only two have
    an upper-case form written with the letters of SUCCESS: the long s
    (U+017F, bytes 197 191), which becomes S, and the sharp s (U+00DF, bytes
    195 159), which becomes SS; both are mapped as JavaScript maps them.
    The bytes of every other character outside ASCII are kept: its
    upper-case form has a character that is no ASCII letter of SUCCESS, so
    the comparison with ['SUCCESS'] comes out the same. *)
Definition upper_ascii (c : ascii) : ascii :=
  let n := nat_of_ascii c in
  if (97 <=? n)%nat && (n <=? 122)%nat then ascii_of_nat (n - 32) else c.

Definition is_long_s (c1 c2 : ascii) : bool :=
  (nat_of_ascii c1 =? 197)%nat && (nat_of_ascii c2 =? 191)%nat.

Definition is_sharp_s (c1 c2 : ascii) : bool :=
  (nat_of_ascii c1 =? 195)%nat && (nat_of_ascii c2 =? 159)%nat.

Fixpoint toUpperCase (s : string) : string :=
  match s with
  | EmptyString => ""
  | String c s' =>
      match s' with
      | String c2 s'' =>
          if is_long_s c c2 then String "S" (toUpperCase s'')
          else if is_sharp_s c c2 then String "S" (String "S" (toUpperCase s''))
          else String (upper_ascii c) (toUpperCase s')
      | EmptyString => String (upper_ascii c) ""
      end
  end.

(** ** The in-memory maps (index.js:18-19)

    [paymentUrls] holds whatever [response.data.result.payment_url] was;
    [orderIdToRefId] holds generated refs. *)
Record state : Type := State {
  paymentUrls : gmap string jsval;
  orderIdToRefId : gmap string string
}.

Definition init : state := State ∅ ∅.

(** [map.get(k)] is [undefined] for a missing key.  A query parameter that
    is absent (or is not a string) never equals a key: [None]. *)
Definition map_get (m : gmap string jsval) (k : option string) : jsval :=
  match k with
  | Some k => default JUndef (m !! k)
  | None => JUndef
  end.

(** ** Requests, replies of the outbound calls, responses *)

(** The order fields the intake handler reads.  [billing_address_phone] is
    [order.billing_address?.phone]. *)
Record order : Type := Order {
  financial_status : jsval;
  billing_address_phone : jsval;
  shipping_address_phone : jsval;
  total_price : jsval;
  id : jsval;
  order_status_url : jsval;
  note : jsval
}.

(** A request to [/shopify-order-webhook] after [express.raw]: the
    signature header, if any, and the body as the bytes received. *)
Record shopify_request : Type := ShopifyRequest {
  hmac_header : option string;
  raw_body : list Byte.byte
}.

(** The body of a request to [/payin-webhook] after [express.json], with
    the request's headers. *)
Record payin_request : Type := PayinRequest {
  headers : list (string * string);
  order_id : jsval;
  status : jsval;
  amount : jsval;
  utr : jsval;
  message : jsval
}.

(** Outbound calls, with the arguments that come from the request. *)
Inductive call : Type :=
| CreateOrder (customer_mobile amount : jsval) (order_id : string)
    (redirect_url remark1 : jsval)
| Capture (shopifyOrderId : string) (amount utr message : jsval)
| CheckOrderStatus (order_id : string).

#[global] Instance call_eq_dec : EqDecision call.
Proof. solve_decision. Defined.

(** What the awaited [axios.post] of the create-order call gives:
    [GwThrows] when it rejects; otherwise [response.data.status] and
    [response.data.result.payment_url], with [None] when
    [response.data.result] has no properties to read (a TypeError). *)
Inductive gw_reply : Type :=
| GwThrows
| GwData (data_status : jsval) (payment_url : option jsval).

(** The capture call resolves or rejects; the status call resolves with
    [response.data] or rejects. *)
Inductive capture_reply : Type := CaptureResolves | CaptureThrows.

Inductive status_reply : Type := StatusData (data : jsval) | StatusThrows.

Inductive payload : Type :=
| Text (s : string)
| JsonPaymentUrl (payment_url : jsval)
| JsonError (error : string)
| JsonData (data : jsval).

Record response : Type := Response { code : nat; body : payload }.

(** A middleware either responds or calls [next()]. *)
Inductive verdict : Type := Next | Respond (r : response).

(** What handling one request does: the maps afterwards, the response
    ([None]: an exception left the handler and nothing was sent) and the
    outbound calls issued. *)
Record outcome : Type := Outcome {
  out_state : state;
  out_response : option response;
  out_calls : list call
}.

Definition send (st : state) (c : nat) (b : payload) (cs : list call) : outcome :=
  Outcome st (Some (Response c b)) cs.

Definition throws (st : state) : outcome := Outcome st None [].

(** ** /get-payment-url (index.js:108-117) *)
Definition get_payment_url (st : state) (query_order_id : option string) : outcome :=
  let paymentUrl := map_get (paymentUrls st) query_order_id in
  if truthy paymentUrl then
    let urls :=
      match query_order_id with
      | Some orderId => delete orderId (paymentUrls st)
      | None => paymentUrls st
      end in
    send (State urls (orderIdToRefId st)) 200 (JsonPaymentUrl paymentUrl) []
  else
    send st 200 (JsonPaymentUrl JNull) [].

(** ** verifyFintrixWebhook (index.js:42-53): [next()] and nothing else. *)
Definition verifyFintrixWebhook (req : payin_request) : verdict := Next.

(** ** /payin-webhook handler (index.js:125-165) *)
Definition payin_handler (st : state) (req : payin_request)
    (reply : capture_reply) : outcome :=
  if negb (truthy (order_id req)) || negb (truthy (status req)) then
    send st 400 (Text "Invalid payload") []
  else
    match order_id req with
    | JStr ref =>
        match match_LIK ref with
        | None => send st 400 (Text "Invalid ref_id format") []
        | Some shopifyOrderId =>
            match status req with
            | JStr s =>
                if negb (toUpperCase s =? "SUCCESS") then
                  send st 200 (Text "Payment was not successful") []
                else
                  let c := Capture shopifyOrderId (amount req) (utr req) (message req) in
                  match reply with
                  | CaptureResolves => send st 200 (Text "Success") [c]
                  | CaptureThrows => send st 500 (Text "Server error") [c]
                  end
            | _ => throws st
            end
        end
    | _ => throws st
    end.

Definition payin_webhook (st : state) (req : payin_request)
    (reply : capture_reply) : outcome :=
  match verifyFintrixWebhook req with
  | Next => payin_handler st req reply
  | Respond r => Outcome st (Some r) []
  end.

(** ** /check-status (index.js:170-190) *)
Definition check_status (st : state) (query_order_id : option string)
    (reply : status_reply) : outcome :=
  let refId := query_order_id ≫= (orderIdToRefId st !!.) in
  match refId with
  | Some ref =>
      if ref =? "" then
        send st 404 (JsonError "Order not found or not processed yet") []
      else
        match reply with
        | StatusData d => send st 200 (JsonData d) [CheckOrderStatus ref]
        | StatusThrows =>
            send st 500 (JsonError "Failed to check status") [CheckOrderStatus ref]
        end
  | None => send st 404 (JsonError "Order not found or not processed yet") []
  end.

(** Requests as they arrive, each with what the environment supplies while
    it is handled: the clock and the reply of the one outbound call the
    handler may await.  Every handler touches the maps in one synchronous
    stretch of code (the intake handler after its [await], the others
    before), so handling a request is one step on the maps. *)
Inductive event : Type :=
| OrderWebhook (req : shopify_request) (now : N) (reply : gw_reply)
| GetPaymentUrl (query_order_id : option string)
| PayinWebhook (req : payin_request) (reply : capture_reply)
| CheckStatus (query_order_id : option string) (reply : status_reply).

Section Server.

(** [crypto.createHmac('sha256', key).update(data).digest('base64')],
    the configured secret, and [JSON.parse] of the body followed by the
    reads of the order's fields ([None]: a SyntaxError, or the TypeError
    of reading a field of [null]). *)
Variable hmac_sha256_base64 : string → list Byte.byte → string.
Variable SHOPIFY_WEBHOOK_SECRET : string.
Variable JSON_parse : list Byte.byte → option order.

(** *** verifyShopifyWebhook (index.js:22-38)

    [generatedHash === hmacHeader]; a missing header is [undefined] and
    equals no string. *)
Definition verifyShopifyWebhook (req : shopify_request) : verdict :=
  let generatedHash := hmac_sha256_base64 SHOPIFY_WEBHOOK_SECRET (raw_body req) in
  match hmac_header req with
  | Some hmacHeader =>
      if generatedHash =? hmacHeader then Next
      else Respond (Response 401 (Text "Webhook verification failed."))
  | None => Respond (Response 401 (Text "Webhook verification failed."))
  end.

(** *** /shopify-order-webhook handler (index.js:61-103) *)
Definition order_handler (st : state) (req : shopify_request) (now : N)
    (reply : gw_reply) : outcome :=
  match JSON_parse (raw_body req) with
  | None => throws st
  | Some order =>
      if negb (strict_eq_str (financial_status order) "pending") then
        send st 200 (Text "Not a pending order") []
      else
        let customerMobile :=
          js_or (billing_address_phone order) (shipping_address_phone order) in
        if negb (truthy customerMobile) then
          send st 200 (Text "Missing mobile") []
        else
          match toString (id order) with
          | None => throws st
          | Some orderId =>
              let refId := refId orderId now in
              let remark1 := js_or (note order) (JStr "Shopify order from likone.shop") in
              let c := CreateOrder customerMobile (total_price order) refId
                         (order_status_url order) remark1 in
              match reply with
              | GwThrows => send st 500 (Text "Server error") [c]
              | GwData data_status result =>
                  if strict_eq_true data_status then
                    match result with
                    | None => send st 500 (Text "Server error") [c]
                    | Some paymentUrl =>
                        send (State (<[orderId := paymentUrl]> (paymentUrls st))
                                    (<[orderId := refId]> (orderIdToRefId st)))
                             200 (Text "Order processed") [c]
                    end
                  else send st 200 (Text "Provider error") [c]
              end
          end
  end.

Definition shopify_order_webhook (st : state) (req : shopify_request)
    (now : N) (reply : gw_reply) : outcome :=
  match verifyShopifyWebhook req with
  | Next => order_handler st req now reply
  | Respond r => Outcome st (Some r) []
  end.

(** *** The server: one request after the other *)
Definition handle (st : state) (ev : event) : outcome :=
  match ev with
  | OrderWebhook req now reply => shopify_order_webhook st req now reply
  | GetPaymentUrl q => get_payment_url st q
  | PayinWebhook req reply => payin_webhook st req reply
  | CheckStatus q reply => check_status st q reply
  end.

Fixpoint run (st : state) (evs : list event) : list outcome :=
  match evs with
  | [] => []
  | ev :: evs' =>
      let o := handle st ev in
      o :: run (out_state o) evs'
  end.

Definition exec (st : state) (evs : list event) : state :=
  foldl (λ st ev, out_state (handle st ev)) st evs.

Definition calls_of (outs : list outcome) : list call :=
  concat (out_calls <$> outs).

Definition reachable (st : state) : Prop := ∃ evs, exec init evs = st.

End Server.

(** Counting the calls of one kind for one order. *)
Definition is_capture_for (orderId : string) (c : call) : bool :=
  match c with
  | Capture o _ _ _ => bool_decide (o = orderId)
  | _ => false
  end.

Definition is_capture (c : call) : bool :=
  match c with
  | Capture _ _ _ _ => true
  | _ => false
  end.

Definition is_create_order (c : call) : bool :=
  match c with
  | CreateOrder _ _ _ _ _ => true
  | _ => false
  end.

Definition count_calls (p : call → bool) (cs : list call) : nat :=
  length (filter (λ c, p c = true) cs).

(** ** The earlier version (index.js:203-395), where it differs *)
Module Legacy.

(** [order_id.match(/LIK(\d+)(\d+)/)] (index.js:312): both groups are
    greedy, so group 1 gives back one digit to group 2. *)
Fixpoint drop_last (s : string) : string :=
  match s with
  | String c "" => ""
  | String c s' => String c (drop_last s')
  | EmptyString => ""
  end.

Definition match_LIK_here (s : string) : option string :=
  match s with
  | String "L" (String "I" (String "K" rest)) =>
      match take_digits rest with
      | String _ (String _ _) as d => Some (drop_last d)
      | _ => None
      end
  | _ => None
  end.

Fixpoint match_LIK (s : string) : option string :=
  match match_LIK_here s with
  | Some d => Some d
  | None =>
      match s with
      | String _ s' => match_LIK s'
      | EmptyString => None
      end
  end.

Section Verify.

(** [JSON.stringify(req.body)] of the body [bodyParser.json()] parsed
    from the bytes received. *)
Variable hmac_sha256_base64 : string → string → string.
Variable SHOPIFY_WEBHOOK_SECRET : string.
Variable JSON_stringify_parsed : list Byte.byte → string.

(** [verifyShopifyWebhook(req)] (index.js:224-232) *)
Definition verifyShopifyWebhook (req : shopify_request) : bool :=
  let body := JSON_stringify_parsed (raw_body req) in
  let calculatedHmac := hmac_sha256_base64 SHOPIFY_WEBHOOK_SECRET body in
  match hmac_header req with
  | Some hmacHeader => hmacHeader =? calculatedHmac
  | None => false
  end.

(** The guard at the head of the handler (index.js:236-239); [None]
    stands for the rest of the handler. *)
Definition order_webhook_guard (req : shopify_request) : option response :=
  if negb (verifyShopifyWebhook req)
  then Some (Response 401 (Text "Webhook verification failed"))
  else None.

End Verify.

End Legacy.

(** ** Concrete requests

    The order of the specification's example, a stand-in for the keyed hash
    and a parser that knows the example's body. *)
Definition all_digits (s : string) : bool :=
  forallb is_digit (list_ascii_of_string s).

Definition demo_hmac (key : string) (data : list Byte.byte) : string :=
  (key +:+ ":") +:+ string_of_list_byte data.

Definition demo_secret : string := "shpss_demo".

Definition order_1001 : order :=
  {| financial_status := JStr "pending";
     billing_address_phone := JStr "+10000000000";
     shipping_address_phone := JUndef;
     total_price := JStr "25.00";
     id := JStr "1001";
     order_status_url := JUndef;
     note := JUndef |}.

Definition text_1001 : string :=
  "{id:1001,financial_status:pending,phone:+10000000000,total_price:25.00}".

Definition body_1001 : list Byte.byte := list_byte_of_string text_1001.

Definition demo_parse (b : list Byte.byte) : option order :=
  if string_of_list_byte b =? text_1001 then Some order_1001 else None.

(** The example's event, signed, and the same body under a header that
    does not match it. *)
Definition signed_1001 : shopify_request :=
  {| hmac_header := Some (demo_hmac demo_secret body_1001);
     raw_body := body_1001 |}.

Definition tampered_1001 : shopify_request :=
  {| hmac_header := Some (demo_hmac demo_secret (list_byte_of_string "{id:1001}"));
     raw_body := body_1001 |}.

Definition link_1001 : jsval := JStr "https://pay.example/abc".

Definition gw_ok : gw_reply := GwData (JBool true) (Some link_1001).

(** The maps with a link stored for order 1001. *)
Definition linked_1001 : state := State {[ "1001" := link_1001 ]} ∅.

(** The example's payment result for the ref generated at 1700000000000,
    and a result for a ref that was never generated. *)
Definition success_1001 : payin_request :=
  {| headers := [];
     order_id := JStr "LIK10011700000000000";
     status := JStr "SUCCESS";
     amount := JStr "25.00";
     utr := JStr "X1";
     message := JUndef |}.

Definition forged_999 : payin_request :=
  {| headers := [];
     order_id := JStr "LIK999";
     status := JStr "success";
     amount := JStr "1.00";
     utr := JUndef;
     message := JUndef |}.

Definition demo_run : state → list event → list outcome :=
  run demo_hmac demo_secret demo_parse.

Definition demo_exec : state → list event → state :=
  exec demo_hmac demo_secret demo_parse.

(** The gateway's success reply the handler acts on: [status === true]
    and a [result] to read [payment_url] from. *)
Definition gw_success (reply : gw_reply) : bool :=
  match reply with
  | GwData data_status (Some _) => strict_eq_true data_status
  | _ => false
  end.

(** Every stored ref was generated for the order id it is stored under. *)
Definition refs_generated (st : state) : Prop :=
  ∀ o ref, orderIdToRefId st !! o = Some ref → ∃ now, ref = refId o now.

(** ** The earlier server (index.js:203-395), handler by handler

    It keeps one map, [paymentUrls]; [bodyParser.json()] runs before every
    route, so the handlers see the parsed body. *)
Module LegacyServer.

Record outcome : Type := Outcome {
  out_urls : gmap string jsval;
  out_response : option response;
  out_calls : list call
}.

Definition send (urls : gmap string jsval) (c : nat) (b : payload)
    (cs : list call) : outcome :=
  Outcome urls (Some (Response c b)) cs.

Definition throws (urls : gmap string jsval) : outcome := Outcome urls None [].

(** What the awaited capture call gives: it rejects, or it resolves with
    [transactionResponse.data.transaction.status] ([None] when
    [data.transaction] has no properties to read). *)
Inductive capture_reply : Type :=
| CaptureThrows
| CaptureData (transaction_status : option jsval).

(** The create-order call of the earlier intake, which also sends
    [remark2] (index.js:257, 267), and what the intake does. *)
Inductive create_order_call : Type :=
| CreateOrderCall (customer_mobile amount : jsval) (order_id : string)
    (redirect_url remark1 : jsval) (remark2 : string).

Definition remark2_of (c : create_order_call) : string :=
  match c with
  | CreateOrderCall _ _ _ _ _ remark2 => remark2
  end.

(** The same call without [remark2], as the current intake makes it. *)
Definition without_remark2 (c : create_order_call) : call :=
  match c with
  | CreateOrderCall customer_mobile amount order_id redirect_url remark1 _ =>
      CreateOrder customer_mobile amount order_id redirect_url remark1
  end.

Record intake_outcome : Type := IntakeOutcome {
  in_urls : gmap string jsval;
  in_response : option response;
  in_calls : list create_order_call
}.

Definition answer (urls : gmap string jsval) (c : nat) (b : payload)
    (cs : list create_order_call) : intake_outcome :=
  IntakeOutcome urls (Some (Response c b)) cs.

Section Handlers.

(** The keyed hash of a string, the secret, [JSON.stringify(req.body)]
    and [req.body] itself for the bytes the parser accepted. *)
Variable hmac_sha256_base64 : string → string → string.
Variable SHOPIFY_WEBHOOK_SECRET : string.
Variable JSON_stringify_parsed : list Byte.byte → string.
Variable body_parsed : list Byte.byte → order.

(** *** /shopify-order-webhook (index.js:235-285) *)
Definition shopify_order_webhook (urls : gmap string jsval)
    (req : shopify_request) (now : N) (reply : gw_reply) : intake_outcome :=
  if negb (Legacy.verifyShopifyWebhook hmac_sha256_base64 SHOPIFY_WEBHOOK_SECRET
             JSON_stringify_parsed req)
  then answer urls 401 (Text "Webhook verification failed") []
  else
    let order := body_parsed (raw_body req) in
    if negb (strict_eq_str (financial_status order) "pending") then
      answer urls 200 (Text "Not a pending order") []
    else
      let customerMobile :=
        js_or (billing_address_phone order) (shipping_address_phone order) in
      if negb (truthy customerMobile) then
        answer urls 200 (Text "Missing mobile") []
      else
        match toString (id order) with
        | None => IntakeOutcome urls None []
        | Some orderId =>
            let refId := refId orderId now in
            let remark1 := js_or (note order) (JStr "Shopify order from likone.shop") in
            let remark2 := "" in
            let c := CreateOrderCall customerMobile (total_price order) refId
                       (order_status_url order) remark1 remark2 in
            match reply with
            | GwThrows => answer urls 500 (Text "Server error") [c]
            | GwData data_status result =>
                if strict_eq_true data_status then
                  match result with
                  | None => answer urls 500 (Text "Server error") [c]
                  | Some paymentUrl =>
                      answer (<[orderId := paymentUrl]> urls) 200
                        (Text "Order processed") [c]
                  end
                else answer urls 200 (Text "Provider error") [c]
            end
        end.

End Handlers.

(** *** /get-payment-url (index.js:288-297) *)
Definition get_payment_url (urls : gmap string jsval)
    (query_order_id : option string) : outcome :=
  let paymentUrl := map_get urls query_order_id in
  if truthy paymentUrl then
    let urls' :=
      match query_order_id with
      | Some orderId => delete orderId urls
      | None => urls
      end in
    send urls' 200 (JsonPaymentUrl paymentUrl) []
  else
    send urls 200 (JsonPaymentUrl JNull) [].

(** *** /payin-webhook (index.js:300-357) *)
Definition payin_webhook (urls : gmap string jsval) (req : payin_request)
    (reply : capture_reply) : outcome :=
  if negb (truthy (order_id req)) || negb (truthy (status req)) then
    send urls 400 (Text "Invalid payload") []
  else
    match order_id req with
    | JStr ref =>
        match Legacy.match_LIK ref with
        | None => send urls 400 (Text "Invalid order_id") []
        | Some shopifyOrderId =>
            match status req with
            | JStr s =>
                let upperStatus := toUpperCase s in
                if negb (upperStatus =? "SUCCESS") then
                  send urls 200 (Text "Failed") []
                else
                  let c := Capture shopifyOrderId (amount req) (utr req) (message req) in
                  match reply with
                  | CaptureThrows => send urls 500 (Text "Server error") [c]
                  | CaptureData None => send urls 500 (Text "Server error") [c]
                  | CaptureData (Some transaction_status) =>
                      if strict_eq_str transaction_status "success"
                      then send urls 200 (Text "Success") [c]
                      else send urls 200 (Text "Capture failed") [c]
                  end
            | _ => throws urls
            end
        end
    | _ => throws urls
    end.

(** *** /check-status (index.js:360-376)

    [const refId = 'LIK' + orderId + '';] with [orderId] the query
    parameter, [undefined] when it is absent. *)
Definition check_status (urls : gmap string jsval)
    (query_order_id : option string) (reply : status_reply) : outcome :=
  let refId := ("LIK" +:+ default "undefined" query_order_id) +:+ "" in
  match reply with
  | StatusData d => send urls 200 (JsonData d) [CheckOrderStatus refId]
  | StatusThrows =>
      send urls 500 (JsonError "Failed to check status") [CheckOrderStatus refId]
  end.

End LegacyServer.

Definition is_check_order_status (c : call) : bool :=
  match c with
  | CheckOrderStatus _ => true
  | _ => false
  end.

(** The kind of outbound call each route makes. *)
Definition call_of_route (ev : event) (c : call) : bool :=
  match ev with
  | OrderWebhook _ _ _ => is_create_order c
  | GetPaymentUrl _ => false
  | PayinWebhook _ _ => is_capture c
  | CheckStatus _ _ => is_check_order_status c
  end.

(** A request with its status field replaced. *)
Definition with_status (req : payin_request) (v : jsval) : payin_request :=
  {| headers := headers req; order_id := order_id req; status := v;
     amount := amount req; utr := utr req; message := message req |}.

(** An order that is taken in: the request is verified, its body parses,
    the order is pending, has a phone and an id (the conditions
    index.js:60-73 test before the gateway is called). *)
Definition actionable (hmac_sha256_base64 : string → list Byte.byte → string)
    (SHOPIFY_WEBHOOK_SECRET : string) (JSON_parse : list Byte.byte → option order)
    (req : shopify_request) (o : order) (orderId : string) : Prop :=
  verifyShopifyWebhook hmac_sha256_base64 SHOPIFY_WEBHOOK_SECRET req = Next ∧
  JSON_parse (raw_body req) = Some o ∧
  strict_eq_str (financial_status o) "pending" = true ∧
  truthy (js_or (billing_address_phone o) (shipping_address_phone o)) = true ∧
  toString (id o) = Some orderId.

(** Every order id with a stored payment link has a stored ref. *)
Definition links_have_refs (st : state) : Prop :=
  ∀ k, is_Some (paymentUrls st !! k) → is_Some (orderIdToRefId st !! k).

(** Strings whose characters are all ASCII. *)
Definition is_ascii (c : ascii) : bool := (nat_of_ascii c <? 128)%nat.

Definition is_ascii_string (s : string) : bool :=
  forallb is_ascii (list_ascii_of_string s).

(** ** The order webhook route with its body parser (index.js:57-60)

    [express.raw({ type: 'application/json' })] runs first.  It reads the
    body into a Buffer when the Content-Type is [application/json]; it
    passes a 413 error on for a body over its limit of 100kb; for another
    Content-Type it leaves [req.body] an empty object, on which
    [.update(req.body)] in [verifyShopifyWebhook] throws.  Errors go to the
    framework's error handler, which answers with the error's status. *)
Record order_webhook_request : Type := OrderWebhookRequest {
  json_content_type : bool;
  signature_header : option string;
  body_bytes : list Byte.byte
}.

Definition raw_limit : N := 102400.

Inductive raw_parsed : Type :=
| RawBuffer (b : list Byte.byte)
| RawSkipped
| RawTooLarge.

Definition express_raw (req : order_webhook_request) : raw_parsed :=
  if negb (json_content_type req) then RawSkipped
  else if (raw_limit <? N.of_nat (length (body_bytes req)))%N then RawTooLarge
  else RawBuffer (body_bytes req).

(** What the route does: the middleware and handler ran, or an error
    reached the error handler. *)
Inductive route_result : Type :=
| Handled (o : outcome)
| ErrorHandler (status : nat).

Definition route_state (st : state) (r : route_result) : state :=
  match r with
  | Handled o => out_state o
  | ErrorHandler _ => st
  end.

Definition route_calls (r : route_result) : list call :=
  match r with
  | Handled o => out_calls o
  | ErrorHandler _ => []
  end.

Definition route_code (r : route_result) : option nat :=
  match r with
  | Handled o => code <$> out_response o
  | ErrorHandler status => Some status
  end.

Definition shopify_order_webhook_route
    (hmac_sha256_base64 : string → list Byte.byte → string)
    (SHOPIFY_WEBHOOK_SECRET : string) (JSON_parse : list Byte.byte → option order)
    (st : state) (req : order_webhook_request) (now : N) (reply : gw_reply)
    : route_result :=
  match express_raw req with
  | RawTooLarge => ErrorHandler 413
  | RawSkipped => ErrorHandler 500
  | RawBuffer b =>
      Handled (shopify_order_webhook hmac_sha256_base64 SHOPIFY_WEBHOOK_SECRET
                 JSON_parse st (ShopifyRequest (signature_header req) b) now reply)
  end.

(** The example's body under a header that does not match it, sent as
    text/plain; and a body with a space that the parser of the earlier
    version writes out without it. *)
Definition tampered_text_plain : order_webhook_request :=
  {| json_content_type := false;
     signature_header := Some (demo_hmac demo_secret (list_byte_of_string "{id:1001}"));
     body_bytes := body_1001 |}.

Definition tampered_json : order_webhook_request :=
  {| json_content_type := true;
     signature_header := Some (demo_hmac demo_secret (list_byte_of_string "{id:1001}"));
     body_bytes := body_1001 |}.

Definition spaced_body : list Byte.byte := list_byte_of_string "{id: 1001}".

Definition demo_stringify (b : list Byte.byte) : string :=
  if string_of_list_byte b =? "{id: 1001}" then "{id:1001}" else string_of_list_byte b.

Definition demo_hmac_string (key data : string) : string :=
  demo_hmac key (list_byte_of_string data).

Definition spaced_request : shopify_request :=
  {| hmac_header := Some (demo_hmac_string demo_secret "{id:1001}");
     raw_body := spaced_body |}.

(** * Properties *)

(** ** The definitions on small inputs *)

Example refId_1001 : refId "1001" 1700000000000 = "LIK10011700000000000".
Proof. reflexivity. Qed.

Example match_LIK_plain : match_LIK "xxLIK42-rest" = Some "42".
Proof. reflexivity. Qed.

Example match_LIK_none : match_LIK "LIKabc" = None.
Proof. reflexivity. Qed.

Example toUpperCase_mixed : toUpperCase "SucCess" = "SUCCESS".
Proof. reflexivity. Qed.

(** The long s and the sharp s, by their bytes. *)
Example toUpperCase_long_s :
  toUpperCase (String (ascii_of_nat 197) (String (ascii_of_nat 191) "uccess")) = "SUCCESS".
Proof. reflexivity. Qed.

Example toUpperCase_sharp_s :
  toUpperCase ("succe" +:+ String (ascii_of_nat 195) (String (ascii_of_nat 159) "")) = "SUCCESS".
Proof. reflexivity. Qed.

(** ** Strings and decimal rendering *)

(** [append] computes in these proofs. *)
#[local] Arguments String.append !_ _ / : simpl nomatch.

Lemma append_assoc (a b c : string) : (a +:+ b) +:+ c = a +:+ (b +:+ c).
Proof. induction a as [|x a IH]; simpl; [done | f_equal; exact IH]. Qed.

Lemma append_length (a b : string) :
  String.length (a +:+ b) = String.length a + String.length b.
Proof. induction a as [|x a IH]; simpl; [done | f_equal; exact IH]. Qed.

(** Two concatenations with tails of one length agree part by part. *)
Lemma append_inj_tail (a b c d : string) :
  String.length c = String.length d →
  a +:+ c = b +:+ d → a = b ∧ c = d.
Proof.
  revert b. induction a as [|x a IH]; intros [|y b] Hlen Heq; simpl in *.
  - done.
  - apply (f_equal String.length) in Heq. simpl in Heq.
    rewrite append_length in Heq. lia.
  - apply (f_equal String.length) in Heq. simpl in Heq.
    rewrite append_length in Heq. lia.
  - injection Heq as -> Heq. destruct (IH b Hlen Heq) as [-> ->]. done.
Qed.

Lemma to_uint_nonnil (n : N) : N.to_uint n ≠ Decimal.Nil.
Proof.
  destruct n as [|p]; simpl; [discriminate|].
  apply DecimalPos.Unsigned.to_uint_nonnil.
Qed.

Lemma dec_unfold (n : N) : dec n = NilEmpty.string_of_uint (N.to_uint n).
Proof.
  unfold dec. pose proof (to_uint_nonnil n) as H.
  destruct (N.to_uint n); [done | reflexivity ..].
Qed.

Lemma dec_inj (a b : N) : dec a = dec b → a = b.
Proof.
  rewrite !dec_unfold. intros H.
  apply DecimalN.Unsigned.to_uint_inj.
  apply (f_equal NilEmpty.uint_of_string) in H.
  rewrite !NilEmpty.usu in H. congruence.
Qed.

Lemma dec_nonempty (n : N) : dec n ≠ "".
Proof.
  rewrite dec_unfold. pose proof (to_uint_nonnil n) as H.
  destruct (N.to_uint n); [done | discriminate ..].
Qed.

Lemma string_of_uint_digits (d : Decimal.uint) :
  all_digits (NilEmpty.string_of_uint d) = true.
Proof. induction d; simpl; [done | exact IHd ..]. Qed.

Lemma dec_digits (n : N) : all_digits (dec n) = true.
Proof. rewrite dec_unfold. apply string_of_uint_digits. Qed.

Lemma all_digits_append (a b : string) :
  all_digits a = true → all_digits b = true → all_digits (a +:+ b) = true.
Proof.
  unfold all_digits. induction a as [|x a IH]; simpl; [done|].
  intros [Hx Ha]%andb_prop Hb. by rewrite Hx, IH.
Qed.

Lemma take_digits_all (s : string) : all_digits s = true → take_digits s = s.
Proof.
  unfold all_digits. induction s as [|x s IH]; simpl; [done|].
  intros [Hx Hs]%andb_prop. by rewrite Hx, IH.
Qed.

Lemma append_nonempty_r (a b : string) : b ≠ "" → a +:+ b ≠ "".
Proof. destruct a; simpl; [done | discriminate]. Qed.

(** *** How many digits a time has

    The value of a digit sequence, most significant digit first, lies
    between the powers of ten its length gives. *)

Lemma value_cons (d : Decimal.uint) :
  d ≠ Decimal.Nil →
  DecimalPos.Unsigned.of_lu (Decimal.rev d) =
  (DecimalPos.Unsigned.of_lu (Decimal.rev (DecimalPos.Unsigned.tl d)) +
   DecimalPos.Unsigned.hd d * 10 ^ DecimalPos.Unsigned.usize (DecimalPos.Unsigned.tl d))%N.
Proof.
  intros Hd. destruct d; [done | ..]; unfold Decimal.rev at 1; simpl Decimal.revapp;
    rewrite DecimalPos.Unsigned.of_lu_revapp; simpl; f_equal; lia.
Qed.

Lemma usize_cons (d : Decimal.uint) :
  d ≠ Decimal.Nil →
  DecimalPos.Unsigned.usize d = N.succ (DecimalPos.Unsigned.usize (DecimalPos.Unsigned.tl d)).
Proof. by destruct d. Qed.

Lemma value_upper (d : Decimal.uint) :
  (DecimalPos.Unsigned.of_lu (Decimal.rev d) < 10 ^ DecimalPos.Unsigned.usize d)%N.
Proof.
  induction d;
    [simpl; lia
    | rewrite value_cons by discriminate;
      simpl DecimalPos.Unsigned.tl; simpl DecimalPos.Unsigned.hd;
      simpl DecimalPos.Unsigned.usize; rewrite N.pow_succ_r'; lia ..].
Qed.

Lemma value_lower (d : Decimal.uint) :
  DecimalPos.Unsigned.hd d ≠ 0%N →
  (10 ^ DecimalPos.Unsigned.usize (DecimalPos.Unsigned.tl d)
   ≤ DecimalPos.Unsigned.of_lu (Decimal.rev d))%N.
Proof.
  intros Hh. assert (d ≠ Decimal.Nil) as Hd by (by intros ->).
  rewrite value_cons by done.
  assert (1 ≤ DecimalPos.Unsigned.hd d)%N by lia. nia.
Qed.

Lemma to_uint_value (t : N) : DecimalPos.Unsigned.of_lu (Decimal.rev (N.to_uint t)) = t.
Proof. rewrite <- DecimalPos.Unsigned.of_uint_alt. apply DecimalN.Unsigned.of_to. Qed.

(** The digits of a time that is not zero do not start with a zero. *)
Lemma to_uint_head (t : N) : t ≠ 0%N → DecimalPos.Unsigned.hd (N.to_uint t) ≠ 0%N.
Proof.
  intros Ht Hh.
  destruct (N.to_uint t) as [|d| | | | | | | | |] eqn:Hd; try (simpl in Hh; lia).
  - pose proof (to_uint_value t) as Hv. rewrite Hd in Hv. simpl in Hv. lia.
  - assert (d = Decimal.Nil ∨ d ≠ Decimal.Nil) as [->|Hnil]
      by (destruct d; [by left | by right ..]).
    + pose proof (to_uint_value t) as Hv. rewrite Hd in Hv. simpl in Hv. lia.
    + pose proof (DecimalN.Unsigned.to_of d) as Hto.
      assert (N.of_uint d = t) as Hof.
      { rewrite <- (DecimalN.Unsigned.of_to t), Hd. reflexivity. }
      rewrite Hof, Hd in Hto.
      pose proof (DecimalFacts.nb_digits_unorm d Hnil) as Hle.
      rewrite <- Hto in Hle. simpl in Hle. lia.
Qed.

Lemma usize_in_decade (t k : N) :
  (10 ^ k ≤ t < 10 ^ (k + 1))%N →
  DecimalPos.Unsigned.usize (N.to_uint t) = (k + 1)%N.
Proof.
  intros [Hlo Hhi].
  assert (t ≠ 0%N) as Ht.
  { pose proof (N.pow_nonzero 10 k). lia. }
  pose proof (to_uint_head t Ht) as Hh.
  pose proof (value_upper (N.to_uint t)) as Hu.
  pose proof (value_lower (N.to_uint t) Hh) as Hl.
  rewrite to_uint_value in Hu, Hl.
  assert (N.to_uint t ≠ Decimal.Nil) as Hd by (intros E; rewrite E in Hh; done).
  rewrite usize_cons in * by done.
  set (a := DecimalPos.Unsigned.usize (DecimalPos.Unsigned.tl (N.to_uint t))) in *.
  assert (a < k + 1)%N by (apply (N.pow_lt_mono_r_iff 10); lia).
  assert (k < N.succ a)%N by (apply (N.pow_lt_mono_r_iff 10); lia).
  lia.
Qed.

Lemma string_of_uint_length (d : Decimal.uint) :
  String.length (NilEmpty.string_of_uint d) = N.to_nat (DecimalPos.Unsigned.usize d).
Proof. induction d; simpl; [done | rewrite IHd; lia ..]. Qed.

(** A time with k+1 digits is rendered with k+1 characters. *)
Lemma dec_length_decade (t k : N) :
  (10 ^ k ≤ t < 10 ^ (k + 1))%N → String.length (dec t) = N.to_nat (k + 1).
Proof.
  intros Ht. by rewrite dec_unfold, string_of_uint_length, (usize_in_decade t k).
Qed.

Example dec_length_now : String.length (dec 1700000000000) = 13.
Proof. reflexivity. Qed.

(** ** Reference generator and extraction *)

Lemma refId_unfold (orderId : string) (now : N) :
  refId orderId now = String "L" (String "I" (String "K" (orderId +:+ dec now))).
Proof. reflexivity. Qed.

(** For an order id made of digits the pattern's group runs through the
    timestamp: what is extracted is the order id followed by the time. *)
Lemma match_LIK_refId (orderId : string) (now : N) :
  all_digits orderId = true →
  match_LIK (refId orderId now) = Some (orderId +:+ dec now).
Proof.
  intros Hd. rewrite refId_unfold.
  unfold match_LIK, match_LIK_here.
  rewrite take_digits_all by (apply all_digits_append; [done | apply dec_digits]).
  pose proof (append_nonempty_r orderId (dec now) (dec_nonempty now)) as Hne.
  destruct (orderId +:+ dec now); [done | reflexivity].
Qed.

Lemma match_LIK_refId_overshoots (orderId : string) (now : N) :
  all_digits orderId = true →
  match_LIK (refId orderId now) ≠ Some orderId.
Proof.
  intros Hd. rewrite match_LIK_refId by done. intros [= H].
  apply (f_equal String.length) in H. rewrite append_length in H.
  pose proof (dec_nonempty now) as Hne.
  destruct (dec now); [done | simpl in H; lia].
Qed.

(** C3: the extraction of the reconciliation handler applied to the ref
    generated for order 1001 at time 1700000000000 does not give back
    1001: the digits of the timestamp are taken as part of the order id. *)
Theorem extract_generated_ref_1001 :
  refId "1001" 1700000000000 = "LIK10011700000000000" ∧
  match_LIK (refId "1001" 1700000000000) = Some "10011700000000000" ∧
  match_LIK (refId "1001" 1700000000000) ≠ Some "1001".
Proof. split; [reflexivity | split; [reflexivity | discriminate]]. Qed.

(** The earlier pattern [/LIK(\d+)(\d+)/] leaves out only the last digit
    of the timestamp. *)
Example legacy_extract_generated_ref_1001 :
  Legacy.match_LIK (refId "1001" 1700000000000) = Some "1001170000000000".
Proof. reflexivity. Qed.

Lemma refId_inv (o1 o2 : string) (t1 t2 : N) :
  refId o1 t1 = refId o2 t2 → o1 +:+ dec t1 = o2 +:+ dec t2.
Proof. rewrite !refId_unfold. by intros [= H]. Qed.

(** Refs with timestamps of one width come apart into their parts. *)
Lemma refId_same_width_inj (o1 o2 : string) (t1 t2 : N) :
  String.length (dec t1) = String.length (dec t2) →
  refId o1 t1 = refId o2 t2 → o1 = o2 ∧ t1 = t2.
Proof.
  intros Hlen Heq. apply refId_inv in Heq.
  destruct (append_inj_tail _ _ _ _ Hlen Heq) as [-> Hd].
  by apply dec_inj in Hd.
Qed.

(** Refs generated for two different order ids
    differ whenever the two timestamps have the same number of digits, in
    particular when both times lie between the same two powers of ten; and
    refs generated for one order id at two different times differ. *)
Theorem refId_distinct (o1 o2 : string) (t1 t2 : N) :
  (o1 ≠ o2 → String.length (dec t1) = String.length (dec t2) →
   refId o1 t1 ≠ refId o2 t2) ∧
  (∀ k : N, o1 ≠ o2 →
     (10 ^ k ≤ t1 < 10 ^ (k + 1))%N → (10 ^ k ≤ t2 < 10 ^ (k + 1))%N →
     refId o1 t1 ≠ refId o2 t2) ∧
  (t1 ≠ t2 → refId o1 t1 ≠ refId o1 t2).
Proof.
  split; [|split].
  - intros Hne Hlen Heq.
    by destruct (refId_same_width_inj _ _ _ _ Hlen Heq) as [? _].
  - intros k Hne H1 H2 Heq.
    assert (String.length (dec t1) = String.length (dec t2)) as Hlen
      by (by rewrite (dec_length_decade t1 k), (dec_length_decade t2 k)).
    by destruct (refId_same_width_inj _ _ _ _ Hlen Heq) as [? _].
  - intros Hne Heq. apply refId_inv in Heq.
    apply (inj (String.app o1)) in Heq. by apply dec_inj in Heq.
Qed.

Lemma refId_distinct_witness :
  refId "1001" 1700000000000 ≠ refId "1002" 1700000000001 ∧
  refId "1001" 1700000000000 ≠ refId "1001" 1700000000001.
Proof.
  destruct (refId_distinct "1001" "1002" 1700000000000 1700000000001)
    as (_ & Hdecade & _).
  destruct (refId_distinct "1001" "1001" 1700000000000 1700000000001)
    as (_ & _ & Htime).
  split.
  - apply (Hdecade 12%N); [discriminate | vm_compute; split | vm_compute; split];
      try discriminate; reflexivity.
  - apply Htime. discriminate.
Defined.

(** C4: the generated refs are not unique.  The generator is a function
    of the order id and the clock only, and it puts nothing between the
    order id and the timestamp.  Orders 19 and
    1 get one ref at times whose digit counts differ, and the same order
    delivered twice within one millisecond sends one ref to the gateway
    twice. *)
Lemma refId_collisions :
  ("19" ≠ "1" ∧ refId "19" 999999999999 = refId "1" 9999999999999) ∧
  calls_of (demo_run init [OrderWebhook signed_1001 1700000000000 gw_ok;
                           OrderWebhook signed_1001 1700000000000 gw_ok]) =
    [CreateOrder (JStr "+10000000000") (JStr "25.00") "LIK10011700000000000"
       JUndef (JStr "Shopify order from likone.shop");
     CreateOrder (JStr "+10000000000") (JStr "25.00") "LIK10011700000000000"
       JUndef (JStr "Shopify order from likone.shop")].
Proof. split; [split; [discriminate | reflexivity] | vm_compute; reflexivity]. Qed.

(** ** Payment results: /payin-webhook *)

Lemma match_LIK_nonempty (ref o : string) : match_LIK ref = Some o → ref ≠ "".
Proof. by intros H ->. Qed.

Lemma toUpperCase_SUCCESS_nonempty (s : string) : toUpperCase s = "SUCCESS" → s ≠ "".
Proof. by intros H ->. Qed.

Lemma eqb_nonempty (s : string) : s ≠ "" → (s =? "") = false.
Proof. intros H. by apply String.eqb_neq. Qed.

(** One delivery of a successful result: the capture call is issued and
    the maps are neither read nor written. *)
Lemma payin_success (st : state) (req : payin_request) (ref o s : string)
    (reply : capture_reply) :
  order_id req = JStr ref → match_LIK ref = Some o →
  status req = JStr s → toUpperCase s = "SUCCESS" →
  out_calls (payin_webhook st req reply) =
    [Capture o (amount req) (utr req) (message req)] ∧
  out_state (payin_webhook st req reply) = st.
Proof.
  intros Hid Hm Hs Hup. unfold payin_webhook, payin_handler. simpl.
  rewrite Hid, Hs. simpl.
  rewrite (eqb_nonempty ref) by eauto using match_LIK_nonempty.
  rewrite (eqb_nonempty s) by eauto using toUpperCase_SUCCESS_nonempty.
  simpl. rewrite Hm, Hup. simpl. by destruct reply.
Qed.

(** The handler never looks at the maps. *)
Lemma payin_ignores_state (st st' : state) (req : payin_request)
    (reply : capture_reply) :
  out_response (payin_webhook st req reply) = out_response (payin_webhook st' req reply) ∧
  out_calls (payin_webhook st req reply) = out_calls (payin_webhook st' req reply).
Proof.
  unfold payin_webhook, payin_handler. simpl.
  repeat (case_match; simpl; try done).
Qed.

Lemma payin_keeps_state (st : state) (req : payin_request) (reply : capture_reply) :
  out_state (payin_webhook st req reply) = st.
Proof.
  unfold payin_webhook, payin_handler. simpl.
  repeat (case_match; simpl; try done).
Qed.

(** C5, as the code has it: an event whose gateway order identifier is a
    string in which no [LIK] is followed by a digit is answered with 400,
    issues no call and leaves the maps as they are. *)
Theorem unmatched_ref_rejected (st : state) (req : payin_request) (ref : string)
    (reply : capture_reply) :
  order_id req = JStr ref → match_LIK ref = None →
  (code <$> out_response (payin_webhook st req reply)) = Some 400 ∧
  out_calls (payin_webhook st req reply) = [] ∧
  out_state (payin_webhook st req reply) = st.
Proof.
  intros Hid Hm. unfold payin_webhook, payin_handler. simpl.
  rewrite Hid, Hm. simpl. by case_match.
Qed.

Lemma unmatched_ref_rejected_witness :
  (code <$> out_response
     (payin_webhook init
        (PayinRequest [] (JStr "garbage") (JStr "SUCCESS") JUndef JUndef JUndef)
        CaptureResolves)) = Some 400 ∧
  out_calls
     (payin_webhook init
        (PayinRequest [] (JStr "garbage") (JStr "SUCCESS") JUndef JUndef JUndef)
        CaptureResolves) = [] ∧
  out_state
     (payin_webhook init
        (PayinRequest [] (JStr "garbage") (JStr "SUCCESS") JUndef JUndef JUndef)
        CaptureResolves) = init.
Proof.
  apply (unmatched_ref_rejected init
           (PayinRequest [] (JStr "garbage") (JStr "SUCCESS") JUndef JUndef JUndef)
           "garbage"); reflexivity.
Defined.

(** No order was ever taken in, so no ref was issued and [LIK999] resolves
    to nothing in the maps; the result is still answered with 200 and the
    capture call for order 999 goes out. *)
Lemma forged_ref_captures :
  ¬ ((∀ o, orderIdToRefId init !! o ≠ Some "LIK999") →
     (code <$> out_response (payin_webhook init forged_999 CaptureResolves)) = Some 400 ∧
     count_calls is_capture (out_calls (payin_webhook init forged_999 CaptureResolves)) = 0).
Proof.
  intros H. destruct H as [H _]; [|discriminate H].
  intros o. unfold init. simpl. by rewrite lookup_empty.
Qed.

Example forged_ref_outcome :
  payin_webhook init forged_999 CaptureResolves =
  send init 200 (Text "Success") [Capture "999" (JStr "1.00") JUndef JUndef].
Proof. reflexivity. Qed.

(** C8: the gateway-sender verification step always hands the request to
    the reconciliation handler: no 401 is ever sent, the outcome does not
    depend on the headers, and a successful result with any headers issues
    the capture call. *)
Theorem fintrix_verification_always_passes (st : state) (req : payin_request)
    (reply : capture_reply) :
  verifyFintrixWebhook req = Next ∧
  payin_webhook st req reply = payin_handler st req reply ∧
  (∀ r, out_response (payin_webhook st req reply) = Some r → code r ≠ 401) ∧
  (∀ hs, payin_webhook st
           (PayinRequest hs (order_id req) (status req) (amount req) (utr req)
              (message req)) reply
         = payin_webhook st req reply) ∧
  (∀ hs, out_calls
           (payin_webhook st
              (PayinRequest hs (JStr "LIK10011700000000000") (JStr "SUCCESS")
                 (amount req) (utr req) (message req)) reply)
         = [Capture "10011700000000000" (amount req) (utr req) (message req)]).
Proof.
  split; [reflexivity|]. split; [reflexivity|]. split; [|split].
  - intros r. unfold payin_webhook, payin_handler. simpl.
    repeat (case_match; simpl; try done); intros [= <-]; simpl; lia.
  - intros hs. reflexivity.
  - intros hs. by destruct reply.
Qed.

Lemma fintrix_verification_always_passes_witness :
  verifyFintrixWebhook forged_999 = Next ∧
  payin_webhook init forged_999 CaptureResolves =
    send init 200 (Text "Success") [Capture "999" (JStr "1.00") JUndef JUndef] ∧
  code (Response 200 (Text "Success")) ≠ 401.
Proof.
  destruct (fintrix_verification_always_passes init forged_999 CaptureResolves)
    as (Hnext & Hsame & Hcode & _).
  split; [exact Hnext | split; [reflexivity | apply Hcode; reflexivity]].
Defined.

(** ** The payment link: /get-payment-url *)

(** C7: for an order id that has a stored payment link, the first of two
    consecutive requests returns the link and removes it, the second
    returns null; a request for an order id with nothing stored returns
    null.  (A stored link is one the handler's own test [if (paymentUrl)]
    accepts.) *)
Theorem payment_url_delivered_once (st : state) (orderId : string) :
  let first := get_payment_url st (Some orderId) in
  let second := get_payment_url (out_state first) (Some orderId) in
  (∀ link, paymentUrls st !! orderId = Some link → truthy link = true →
     out_response first = Some (Response 200 (JsonPaymentUrl link)) ∧
     paymentUrls (out_state first) = delete orderId (paymentUrls st) ∧
     out_response second = Some (Response 200 (JsonPaymentUrl JNull)) ∧
     out_state second = out_state first) ∧
  (paymentUrls st !! orderId = None →
     out_response first = Some (Response 200 (JsonPaymentUrl JNull)) ∧
     out_state first = st).
Proof.
  simpl. split.
  - intros link Hl Ht. unfold get_payment_url. simpl.
    rewrite Hl. simpl. rewrite Ht. simpl.
    rewrite lookup_delete_eq. simpl. done.
  - intros Hn. unfold get_payment_url. simpl. rewrite Hn. simpl. done.
Qed.

Lemma payment_url_delivered_once_witness :
  out_response (get_payment_url linked_1001 (Some "1001")) =
    Some (Response 200 (JsonPaymentUrl link_1001)) ∧
  out_response
    (get_payment_url (out_state (get_payment_url linked_1001 (Some "1001")))
       (Some "1001")) =
    Some (Response 200 (JsonPaymentUrl JNull)) ∧
  out_response (get_payment_url linked_1001 (Some "1002")) =
    Some (Response 200 (JsonPaymentUrl JNull)).
Proof.
  destruct (payment_url_delivered_once linked_1001 "1001") as [Hsome _].
  destruct (payment_url_delivered_once linked_1001 "1002") as [_ Hnone].
  destruct (Hsome link_1001) as (H1 & _ & H2 & _);
    [vm_compute; reflexivity | reflexivity |].
  destruct Hnone as [H3 _]; [vm_compute; reflexivity |].
  split; [exact H1 | split; [exact H2 | exact H3]].
Defined.

(** A stored value the handler's test rejects, such as the empty string,
    is reported as null and stays in the map. *)
Example empty_link_not_delivered :
  get_payment_url (State {[ "1001" := JStr "" ]} ∅) (Some "1001") =
  send (State {[ "1001" := JStr "" ]} ∅) 200 (JsonPaymentUrl JNull) [].
Proof. vm_compute. reflexivity. Qed.

(** Taking a link leaves the ref map as it is. *)
Lemma get_payment_url_keeps_refs (st : state) (q : option string) :
  orderIdToRefId (out_state (get_payment_url st q)) = orderIdToRefId st.
Proof. unfold get_payment_url. by case_match. Qed.

Lemma get_payment_url_no_calls (st : state) (q : option string) :
  out_calls (get_payment_url st q) = [].
Proof. unfold get_payment_url. by case_match. Qed.

(** ** The status query: /check-status *)

Lemma check_status_keeps_state (st : state) (q : option string) (reply : status_reply) :
  out_state (check_status st q reply) = st.
Proof. unfold check_status. repeat (case_match; simpl; try done). Qed.

Lemma check_status_found (st : state) (orderId ref : string) (reply : status_reply) :
  orderIdToRefId st !! orderId = Some ref → ref ≠ "" →
  out_calls (check_status st (Some orderId) reply) = [CheckOrderStatus ref] ∧
  (code <$> out_response (check_status st (Some orderId) reply)) ≠ Some 404.
Proof.
  intros Hl Hne. unfold check_status. simpl. rewrite Hl.
  rewrite (eqb_nonempty ref Hne). by destruct reply.
Qed.

Lemma check_status_missing (st : state) (orderId : string) (reply : status_reply) :
  orderIdToRefId st !! orderId = None →
  check_status st (Some orderId) reply =
  send st 404 (JsonError "Order not found or not processed yet") [].
Proof. intros Hl. unfold check_status. simpl. by rewrite Hl. Qed.

(** ** Order intake and the server as a whole *)

Lemma refId_nonempty (orderId : string) (now : N) : refId orderId now ≠ "".
Proof. by rewrite refId_unfold. Qed.

Lemma refs_generated_init : refs_generated init.
Proof. intros o ref. unfold init. simpl. by rewrite lookup_empty. Qed.

Section ServerProperties.

Variable hmac_sha256_base64 : string → list Byte.byte → string.
Variable SHOPIFY_WEBHOOK_SECRET : string.
Variable JSON_parse : list Byte.byte → option order.

Abbreviation verify := (verifyShopifyWebhook hmac_sha256_base64 SHOPIFY_WEBHOOK_SECRET).
Abbreviation order_webhook :=
  (shopify_order_webhook hmac_sha256_base64 SHOPIFY_WEBHOOK_SECRET JSON_parse).
Abbreviation handle := (handle hmac_sha256_base64 SHOPIFY_WEBHOOK_SECRET JSON_parse).
Abbreviation run := (run hmac_sha256_base64 SHOPIFY_WEBHOOK_SECRET JSON_parse).
Abbreviation exec := (exec hmac_sha256_base64 SHOPIFY_WEBHOOK_SECRET JSON_parse).
Abbreviation reachable := (reachable hmac_sha256_base64 SHOPIFY_WEBHOOK_SECRET JSON_parse).

Lemma verify_mismatch (req : shopify_request) :
  hmac_header req ≠ Some (hmac_sha256_base64 SHOPIFY_WEBHOOK_SECRET (raw_body req)) →
  verify req = Respond (Response 401 (Text "Webhook verification failed.")).
Proof.
  intros Hne. unfold verifyShopifyWebhook. cbv zeta.
  destruct (hmac_header req) as [h|]; [|done].
  destruct (String.eqb_spec (hmac_sha256_base64 SHOPIFY_WEBHOOK_SECRET (raw_body req)) h)
    as [Heq|Hdiff]; [exfalso; apply Hne; by rewrite Heq | done].
Qed.

Lemma verify_match (req : shopify_request) :
  hmac_header req = Some (hmac_sha256_base64 SHOPIFY_WEBHOOK_SECRET (raw_body req)) →
  verify req = Next.
Proof.
  intros He. unfold verifyShopifyWebhook. cbv zeta.
  rewrite He. by rewrite String.eqb_refl.
Qed.

(** Behind the body parser: an order-creation request whose signature
    header is not the keyed hash of the raw body is answered with 401; the
    maps are not touched and no outbound call is made. *)
Theorem tampered_order_webhook_rejected (st : state) (req : shopify_request)
    (now : N) (reply : gw_reply) :
  hmac_header req ≠ Some (hmac_sha256_base64 SHOPIFY_WEBHOOK_SECRET (raw_body req)) →
  order_webhook st req now reply =
  Outcome st (Some (Response 401 (Text "Webhook verification failed."))) [].
Proof.
  intros Hne. unfold shopify_order_webhook. by rewrite verify_mismatch.
Qed.

(** C10: when the gateway's reply is not a success with a result (it
    rejected the order, or the call threw), both maps are left as they
    were; the maps change only after such a success. *)
Theorem gateway_failure_leaves_maps (st : state) (req : shopify_request)
    (now : N) (reply : gw_reply) :
  (gw_success reply = false → out_state (order_webhook st req now reply) = st) ∧
  (out_state (order_webhook st req now reply) ≠ st → gw_success reply = true).
Proof.
  assert (gw_success reply = false → out_state (order_webhook st req now reply) = st)
    as Hfail.
  { unfold shopify_order_webhook, order_handler, gw_success.
    intros Hs. repeat (case_match; simpl in *; try done); congruence. }
  split; [exact Hfail|].
  intros Hne. destruct (gw_success reply); [done|]. by destruct Hne; apply Hfail.
Qed.

(** A delivery that passes verification and is a pending order with a
    phone and an id. *)
Lemma order_webhook_valid (st : state) (req : shopify_request) (now : N)
    (reply : gw_reply) (o : order) (orderId : string) :
  verify req = Next →
  JSON_parse (raw_body req) = Some o →
  strict_eq_str (financial_status o) "pending" = true →
  truthy (js_or (billing_address_phone o) (shipping_address_phone o)) = true →
  toString (id o) = Some orderId →
  let c := CreateOrder (js_or (billing_address_phone o) (shipping_address_phone o))
             (total_price o) (refId orderId now) (order_status_url o)
             (js_or (note o) (JStr "Shopify order from likone.shop")) in
  order_webhook st req now reply =
  match reply with
  | GwThrows => send st 500 (Text "Server error") [c]
  | GwData data_status result =>
      if strict_eq_true data_status then
        match result with
        | None => send st 500 (Text "Server error") [c]
        | Some paymentUrl =>
            send (State (<[orderId := paymentUrl]> (paymentUrls st))
                        (<[orderId := refId orderId now]> (orderIdToRefId st)))
                 200 (Text "Order processed") [c]
        end
      else send st 200 (Text "Provider error") [c]
  end.
Proof.
  intros Hv Hp Hf Hm Hid. unfold shopify_order_webhook, order_handler.
  rewrite Hv, Hp, Hf, Hm, Hid. reflexivity.
Qed.

(** C2, as the code has it: every delivery of a valid order-creation
    event makes one gateway order-creation call, whatever the maps hold
    for that order id; the ref mapping is written after the call, only
    on the gateway's success, and replaces an earlier one. *)
Theorem order_webhook_calls_gateway_each_delivery (st : state)
    (req : shopify_request) (now : N) (reply : gw_reply) (o : order)
    (orderId : string) :
  verify req = Next →
  JSON_parse (raw_body req) = Some o →
  strict_eq_str (financial_status o) "pending" = true →
  truthy (js_or (billing_address_phone o) (shipping_address_phone o)) = true →
  toString (id o) = Some orderId →
  out_calls (order_webhook st req now reply) =
    [CreateOrder (js_or (billing_address_phone o) (shipping_address_phone o))
       (total_price o) (refId orderId now) (order_status_url o)
       (js_or (note o) (JStr "Shopify order from likone.shop"))] ∧
  orderIdToRefId (out_state (order_webhook st req now reply)) =
    (if gw_success reply
     then <[orderId := refId orderId now]> (orderIdToRefId st)
     else orderIdToRefId st).
Proof.
  intros Hv Hp Hf Hm Hid.
  rewrite (order_webhook_valid st req now reply o orderId) by done.
  destruct reply as [|s [url|]]; simpl; [done | | ];
    destruct (strict_eq_true s); done.
Qed.

(** *** Runs of the server *)

Lemma exec_cons (st : state) (ev : event) (evs : list event) :
  exec st (ev :: evs) = exec (out_state (handle st ev)) evs.
Proof. reflexivity. Qed.

Lemma run_cons (st : state) (ev : event) (evs : list event) :
  calls_of (run st (ev :: evs)) =
  (out_calls (handle st ev) ++ calls_of (run (out_state (handle st ev)) evs))%list.
Proof. reflexivity. Qed.

Lemma order_webhook_refs_generated (st : state) (req : shopify_request) (now : N)
    (reply : gw_reply) :
  refs_generated st → refs_generated (out_state (order_webhook st req now reply)).
Proof.
  intros Hst. unfold shopify_order_webhook, order_handler.
  repeat (case_match; simpl; try done).
  intros k ref. simpl. rewrite lookup_insert. case_decide as Hk.
  - intros [= <-]. subst k. by eexists.
  - apply Hst.
Qed.

Lemma handle_refs_generated (st : state) (ev : event) :
  refs_generated st → refs_generated (out_state (handle st ev)).
Proof.
  intros Hst. destruct ev as [req now reply | q | req reply | q reply]; simpl.
  - by apply order_webhook_refs_generated.
  - unfold refs_generated. by rewrite get_payment_url_keeps_refs.
  - by rewrite payin_keeps_state.
  - by rewrite check_status_keeps_state.
Qed.

Lemma exec_refs_generated (evs : list event) (st : state) :
  refs_generated st → refs_generated (exec st evs).
Proof.
  revert st. induction evs as [|ev evs IH]; intros st Hst; [done|].
  rewrite exec_cons. by apply IH, handle_refs_generated.
Qed.

Lemma reachable_refs_generated (st : state) : reachable st → refs_generated st.
Proof. intros [evs <-]. apply exec_refs_generated, refs_generated_init. Qed.

(** Any number of link fetches, for any order ids, leave the ref map. *)
Lemma exec_takes_keep_refs (takes : list (option string)) (st : state) :
  orderIdToRefId (exec st (GetPaymentUrl <$> takes)) = orderIdToRefId st.
Proof.
  revert st. induction takes as [|q takes IH]; intros st; [done|].
  rewrite fmap_cons, exec_cons, IH. simpl. apply get_payment_url_keeps_refs.
Qed.

(** C1, as the code has it: a payment result whose order identifier
    matches the pattern and whose status is success in any letter case
    issues the capture call on every delivery; nothing is remembered and no
    order status is read, so n deliveries issue n capture calls. *)
Theorem success_captured_on_every_delivery (st : state) (req : payin_request)
    (ref o s : string) (replies : list capture_reply) :
  order_id req = JStr ref → match_LIK ref = Some o →
  status req = JStr s → toUpperCase s = "SUCCESS" →
  calls_of (run st (PayinWebhook req <$> replies)) =
  replicate (length replies) (Capture o (amount req) (utr req) (message req)).
Proof.
  intros Hid Hm Hs Hup. induction replies as [|reply replies IH]; [done|].
  rewrite fmap_cons, run_cons. simpl handle.
  destruct (payin_success st req ref o s reply Hid Hm Hs Hup) as [-> ->].
  by rewrite IH.
Qed.

(** C9: fetching payment links, any number of times and for any order
    ids, leaves the ref map as it is; afterwards the status query for an
    order id with a stored ref calls the gateway with that ref, and it
    answers 404 exactly for the order ids with no stored ref. *)
Theorem take_link_keeps_ref (st : state) (takes : list (option string))
    (orderId : string) (reply : status_reply) :
  reachable st →
  orderIdToRefId (exec st (GetPaymentUrl <$> takes)) = orderIdToRefId st ∧
  (∀ ref, orderIdToRefId st !! orderId = Some ref →
     out_calls (check_status (exec st (GetPaymentUrl <$> takes)) (Some orderId) reply)
       = [CheckOrderStatus ref]) ∧
  ((code <$> out_response
      (check_status (exec st (GetPaymentUrl <$> takes)) (Some orderId) reply))
     = Some 404
   ↔ orderIdToRefId st !! orderId = None).
Proof.
  intros Hreach. apply reachable_refs_generated in Hreach.
  pose proof (exec_takes_keep_refs takes st) as Hkeep.
  split; [exact Hkeep|]. split.
  - intros ref Hl. destruct (Hreach _ _ Hl) as [now ->].
    apply check_status_found; [by rewrite Hkeep | apply refId_nonempty].
  - destruct (orderIdToRefId st !! orderId) as [ref|] eqn:Hl.
    + destruct (Hreach _ _ Hl) as [now ->]. split; [|done].
      intros H404. exfalso.
      eapply check_status_found; [by rewrite Hkeep | apply refId_nonempty | exact H404].
    + split; [done|]. intros _. rewrite check_status_missing; [done | by rewrite Hkeep].
Qed.

(** An intake that completed stored the ref it sent to the gateway, and
    the status query finds it after the link was fetched. *)
Corollary status_after_intake_and_takes (st : state) (req : shopify_request)
    (now : N) (reply : gw_reply) (o : order) (orderId : string)
    (takes : list (option string)) (sreply : status_reply) :
  reachable st →
  verify req = Next →
  JSON_parse (raw_body req) = Some o →
  toString (id o) = Some orderId →
  out_response (order_webhook st req now reply) =
    Some (Response 200 (Text "Order processed")) →
  out_calls
    (check_status
       (exec (out_state (order_webhook st req now reply)) (GetPaymentUrl <$> takes))
       (Some orderId) sreply)
  = [CheckOrderStatus (refId orderId now)].
Proof.
  intros Hreach Hv Hp Hid Hdone.
  apply check_status_found; [|apply refId_nonempty].
  rewrite exec_takes_keep_refs.
  revert Hdone. unfold shopify_order_webhook, order_handler.
  rewrite Hv, Hp, Hid.
  repeat (case_match; simpl; try done).
  intros _. by rewrite lookup_insert_eq.
Qed.

End ServerProperties.

(** ** The example order, end to end *)

Lemma tampered_order_webhook_rejected_witness :
  shopify_order_webhook demo_hmac demo_secret demo_parse init tampered_1001
    1700000000000 gw_ok =
  Outcome init (Some (Response 401 (Text "Webhook verification failed."))) [].
Proof.
  apply (tampered_order_webhook_rejected demo_hmac demo_secret demo_parse init
           tampered_1001 1700000000000 gw_ok).
  vm_compute. discriminate.
Defined.

Lemma gateway_failure_leaves_maps_witness :
  out_state
    (shopify_order_webhook demo_hmac demo_secret demo_parse linked_1001 signed_1001
       1700000000000 GwThrows) = linked_1001 ∧
  out_state
    (shopify_order_webhook demo_hmac demo_secret demo_parse linked_1001 signed_1001
       1700000000000 (GwData (JBool false) None)) = linked_1001.
Proof.
  split.
  - apply (gateway_failure_leaves_maps demo_hmac demo_secret demo_parse linked_1001
             signed_1001 1700000000000 GwThrows). reflexivity.
  - apply (gateway_failure_leaves_maps demo_hmac demo_secret demo_parse linked_1001
             signed_1001 1700000000000 (GwData (JBool false) None)). reflexivity.
Defined.

(** The maps after the example order was taken in at 1700000000000. *)
Lemma order_webhook_calls_gateway_each_delivery_witness :
  out_calls
    (shopify_order_webhook demo_hmac demo_secret demo_parse
       (demo_exec init [OrderWebhook signed_1001 1700000000000 gw_ok])
       signed_1001 1700000000005 gw_ok) =
    [CreateOrder (JStr "+10000000000") (JStr "25.00") (refId "1001" 1700000000005)
       JUndef (JStr "Shopify order from likone.shop")] ∧
  orderIdToRefId
    (out_state
       (shopify_order_webhook demo_hmac demo_secret demo_parse
          (demo_exec init [OrderWebhook signed_1001 1700000000000 gw_ok])
          signed_1001 1700000000005 gw_ok)) =
    <["1001" := refId "1001" 1700000000005]>
      (orderIdToRefId (demo_exec init [OrderWebhook signed_1001 1700000000000 gw_ok])).
Proof.
  apply (order_webhook_calls_gateway_each_delivery demo_hmac demo_secret demo_parse
           (demo_exec init [OrderWebhook signed_1001 1700000000000 gw_ok])
           signed_1001 1700000000005 gw_ok order_1001 "1001"); reflexivity.
Defined.

(** The same valid event delivered twice: the second delivery finds the
    mapping of the first and calls the gateway again. *)
Lemma duplicate_order_calls_gateway_twice :
  orderIdToRefId (demo_exec init [OrderWebhook signed_1001 1700000000000 gw_ok])
    !! "1001" = Some "LIK10011700000000000" ∧
  ¬ (count_calls is_create_order
       (calls_of (demo_run init [OrderWebhook signed_1001 1700000000000 gw_ok;
                                 OrderWebhook signed_1001 1700000000005 gw_ok]))
     ≤ 1)%nat.
Proof. split; [vm_compute; reflexivity | vm_compute; lia]. Qed.

Lemma success_captured_on_every_delivery_witness :
  calls_of (demo_run init (PayinWebhook success_1001 <$> [CaptureResolves; CaptureResolves])) =
  replicate 2 (Capture "10011700000000000" (JStr "25.00") (JStr "X1") JUndef).
Proof.
  apply (success_captured_on_every_delivery demo_hmac demo_secret demo_parse init
           success_1001 "LIK10011700000000000" "10011700000000000" "SUCCESS"
           [CaptureResolves; CaptureResolves]); reflexivity.
Defined.

(** The example's successful result delivered twice: two capture calls. *)
Lemma success_twice_captures_twice :
  ¬ (count_calls is_capture
       (calls_of (demo_run init [PayinWebhook success_1001 CaptureResolves;
                                 PayinWebhook success_1001 CaptureResolves]))
     ≤ 1)%nat.
Proof. vm_compute. lia. Qed.

Lemma take_link_keeps_ref_witness :
  orderIdToRefId
    (demo_exec (demo_exec init [OrderWebhook signed_1001 1700000000000 gw_ok])
       (GetPaymentUrl <$> [Some "1001"; Some "1001"]))
  = orderIdToRefId (demo_exec init [OrderWebhook signed_1001 1700000000000 gw_ok]) ∧
  out_calls
    (check_status
       (demo_exec (demo_exec init [OrderWebhook signed_1001 1700000000000 gw_ok])
          (GetPaymentUrl <$> [Some "1001"; Some "1001"]))
       (Some "1001") (StatusData (JStr "paid")))
  = [CheckOrderStatus "LIK10011700000000000"].
Proof.
  destruct (take_link_keeps_ref demo_hmac demo_secret demo_parse
              (demo_exec init [OrderWebhook signed_1001 1700000000000 gw_ok])
              [Some "1001"; Some "1001"] "1001" (StatusData (JStr "paid")))
    as (Hkeep & Hfound & _).
  - exists [OrderWebhook signed_1001 1700000000000 gw_ok]. reflexivity.
  - split; [exact Hkeep | apply Hfound; vm_compute; reflexivity].
Defined.

(** ** The earlier verifier *)

(** It compares the header with the hash of the parsed body written out
    again, not of the bytes received; the guard answers 401 when they
    differ. *)
Lemma legacy_verify_spec (hmac : string → string → string) (secret : string)
    (stringify : list Byte.byte → string) (req : shopify_request) :
  Legacy.verifyShopifyWebhook hmac secret stringify req = true ↔
  hmac_header req = Some (hmac secret (stringify (raw_body req))).
Proof.
  unfold Legacy.verifyShopifyWebhook. cbv zeta.
  destruct (hmac_header req) as [h|]; [|done].
  rewrite String.eqb_eq. split; [by intros -> | by intros [= ->]].
Qed.

Lemma legacy_mismatch_rejected (hmac : string → string → string) (secret : string)
    (stringify : list Byte.byte → string) (req : shopify_request) :
  hmac_header req ≠ Some (hmac secret (stringify (raw_body req))) →
  Legacy.order_webhook_guard hmac secret stringify req =
  Some (Response 401 (Text "Webhook verification failed")).
Proof.
  intros Hne. unfold Legacy.order_webhook_guard.
  destruct (Legacy.verifyShopifyWebhook hmac secret stringify req) eqn:Hv; [|done].
  by apply legacy_verify_spec in Hv.
Qed.

(** * Further properties of the handlers *)

(** ** The pattern [/LIK(\d+)/] *)

Lemma take_digits_digits (s : string) : all_digits (take_digits s) = true.
Proof.
  unfold all_digits. induction s as [|c s IH]; simpl; [done|].
  destruct (is_digit c) eqn:Hc; simpl; [by rewrite Hc | done].
Qed.

Lemma take_digits_split (s : string) :
  ∃ post, s = take_digits s +:+ post ∧ take_digits post = "".
Proof.
  induction s as [|c s (post & Hs & Hp)]; simpl.
  - by exists "".
  - destruct (is_digit c) eqn:Hc.
    + exists post. split; [simpl; by rewrite <- Hs | done].
    + exists (String c s). split; [done | simpl; by rewrite Hc].
Qed.

Lemma take_digits_append (o tail : string) :
  all_digits o = true → take_digits (o +:+ tail) = o +:+ take_digits tail.
Proof.
  unfold all_digits. induction o as [|c o IH]; simpl; [done|].
  intros [Hc Ho]%andb_prop. by rewrite Hc, IH.
Qed.

Lemma match_LIK_here_sound (s d : string) :
  match_LIK_here s = Some d →
  ∃ post, s = "LIK" +:+ d +:+ post ∧ d ≠ "" ∧ all_digits d = true ∧
          take_digits post = "".
Proof.
  unfold match_LIK_here. intros H.
  repeat (case_match; try done); subst.
  all: match goal with
       | Hd : take_digits ?rest = String ?a ?b |- _ =>
           destruct (take_digits_split rest) as (post & Hs & Hp);
           pose proof (take_digits_digits rest) as Hall;
           rewrite Hd in Hs, Hall; injection H as <-;
           exists post; split; [simpl in *; by rewrite <- Hs | done]
       end.
Qed.

Lemma match_LIK_step (c : ascii) (s : string) :
  match_LIK (String c s) =
  match match_LIK_here (String c s) with
  | Some d => Some d
  | None => match_LIK s
  end.
Proof. reflexivity. Qed.

Lemma match_LIK_some_digits (s d : string) :
  match_LIK s = Some d → d ≠ "" ∧ all_digits d = true.
Proof.
  induction s as [|c s IH]; [done|].
  rewrite match_LIK_step. destruct (match_LIK_here (String c s)) as [d'|] eqn:Hh.
  - intros [= ->]. by destruct (match_LIK_here_sound _ _ Hh) as (post & _ & ? & ? & _).
  - exact IH.
Qed.

(** X1: Whatever the pattern extracts is a run of digits that stands in the
    identifier right after [LIK] and is not followed by another digit. *)
Theorem match_LIK_sound (s d : string) :
  match_LIK s = Some d →
  ∃ pre post, s = pre +:+ "LIK" +:+ d +:+ post ∧ d ≠ "" ∧
              all_digits d = true ∧ take_digits post = "".
Proof.
  induction s as [|c s IH]; [done|].
  rewrite match_LIK_step. destruct (match_LIK_here (String c s)) as [d'|] eqn:Hh.
  - intros [= ->]. destruct (match_LIK_here_sound _ _ Hh) as (post & Hs & Hrest).
    exists "", post. by rewrite Hs.
  - intros Hm. destruct (IH Hm) as (pre & post & -> & Hrest).
    by exists (String c pre), post.
Qed.

Lemma match_LIK_sound_witness :
  ∃ pre post, "refLIK42x" = pre +:+ "LIK" +:+ "42" +:+ post ∧ "42" ≠ "" ∧
              all_digits "42" = true ∧ take_digits post = "".
Proof. apply (match_LIK_sound "refLIK42x" "42"). reflexivity. Defined.

(** X2: An order id made of digits is recovered when what follows it does
    not start with a digit. *)
Theorem match_LIK_delimited (o tail : string) :
  all_digits o = true → o ≠ "" → take_digits tail = "" →
  match_LIK (("LIK" +:+ o) +:+ tail) = Some o.
Proof.
  intros Hd Hne Ht.
  change (("LIK" +:+ o) +:+ tail)
    with (String "L" (String "I" (String "K" (o +:+ tail)))).
  unfold match_LIK, match_LIK_here.
  rewrite take_digits_append, Ht by done.
  assert (o +:+ "" = o) as -> by (clear; induction o; simpl; congruence).
  by destruct o.
Qed.

Lemma match_LIK_delimited_witness :
  match_LIK (("LIK" +:+ "1001") +:+ "-1700000000000") = Some "1001".
Proof. apply (match_LIK_delimited "1001" "-1700000000000"); [reflexivity | discriminate | reflexivity]. Defined.

(** ** Payment results, continued *)

Lemma negb_eqb_false (a b : string) : negb (a =? b) = false → a = b.
Proof. intros H. apply String.eqb_eq. by destruct (a =? b). Qed.

Lemma payin_calls_inv (st : state) (req : payin_request) (reply : capture_reply) :
  out_calls (payin_webhook st req reply) ≠ [] →
  ∃ ref o s, order_id req = JStr ref ∧ match_LIK ref = Some o ∧
             status req = JStr s ∧ toUpperCase s = "SUCCESS".
Proof.
  unfold payin_webhook, payin_handler. simpl.
  destruct (order_id req) as [| |b|z|ref] eqn:Hid;
    repeat (case_match; simpl; try done).
  all: intros _; eexists ref, _, _; repeat split; try done.
  all: by apply negb_eqb_false.
Qed.

(** X3: A capture call goes out exactly when the order identifier is a string
    the pattern matches and the status is a string that reads SUCCESS in
    upper case. *)
Theorem capture_issued_iff (st : state) (req : payin_request)
    (reply : capture_reply) :
  out_calls (payin_webhook st req reply) ≠ [] ↔
  ∃ ref o s, order_id req = JStr ref ∧ match_LIK ref = Some o ∧
             status req = JStr s ∧ toUpperCase s = "SUCCESS".
Proof.
  split; [apply payin_calls_inv|].
  intros (ref & o & s & Hid & Hm & Hs & Hup).
  destruct (payin_success st req ref o s reply Hid Hm Hs Hup) as [-> _]. done.
Qed.

(** X4: The order a capture call names is always a non-empty run of digits
    taken from the identifier, whatever the request holds. *)
Theorem capture_target_is_numeric (st : state) (req : payin_request)
    (reply : capture_reply) (c : call) :
  c ∈ out_calls (payin_webhook st req reply) →
  ∃ o, c = Capture o (amount req) (utr req) (message req) ∧
       o ≠ "" ∧ all_digits o = true.
Proof.
  intros Hc.
  assert (out_calls (payin_webhook st req reply) ≠ []) as Hne
    by (intros E; rewrite E in Hc; by apply not_elem_of_nil in Hc).
  apply payin_calls_inv in Hne as (ref & o & s & Hid & Hm & Hs & Hup).
  destruct (payin_success st req ref o s reply Hid Hm Hs Hup) as [Hcalls _].
  rewrite Hcalls in Hc. apply list_elem_of_singleton in Hc as ->.
  destruct (match_LIK_some_digits _ _ Hm) as [Hne' Hd].
  by exists o.
Qed.

Lemma capture_target_is_numeric_witness :
  ∃ o, Capture "999" (JStr "1.00") JUndef JUndef =
         Capture o (amount forged_999) (utr forged_999) (message forged_999) ∧
       o ≠ "" ∧ all_digits o = true.
Proof.
  apply (capture_target_is_numeric init forged_999 CaptureResolves).
  vm_compute. apply list_elem_of_here.
Defined.

(** *** The status is read without regard to letter case *)

Lemma upper_ascii_idemp (c : ascii) : upper_ascii (upper_ascii c) = upper_ascii c.
Proof. destruct c as [[] [] [] [] [] [] [] []]; reflexivity. Qed.

Lemma upper_ascii_is_ascii (c : ascii) :
  is_ascii c = true → is_ascii (upper_ascii c) = true.
Proof. destruct c as [[] [] [] [] [] [] [] []]; intros H; (reflexivity || discriminate H). Qed.

(** On an ASCII character no two-byte form starts. *)
Lemma toUpperCase_ascii_cons (c : ascii) (s : string) :
  is_ascii c = true →
  toUpperCase (String c s) = String (upper_ascii c) (toUpperCase s).
Proof.
  intros Hc. destruct s as [|c2 s]; [reflexivity|].
  cbn [toUpperCase]. unfold is_long_s, is_sharp_s.
  destruct c as [[] [] [] [] [] [] [] []]; (discriminate Hc || reflexivity).
Qed.

Lemma toUpperCase_ascii (s : string) :
  is_ascii_string s = true →
  is_ascii_string (toUpperCase s) = true ∧
  toUpperCase (toUpperCase s) = toUpperCase s.
Proof.
  unfold is_ascii_string. induction s as [|c s IH]; [done|].
  intros H. cbn [list_ascii_of_string forallb] in H.
  apply andb_prop in H as [Hc Hs]. destruct (IH Hs) as [IH1 IH2].
  rewrite (toUpperCase_ascii_cons c s Hc).
  rewrite (toUpperCase_ascii_cons (upper_ascii c) _ (upper_ascii_is_ascii c Hc)).
  cbn [list_ascii_of_string forallb].
  by rewrite (upper_ascii_is_ascii c Hc), IH1, upper_ascii_idemp, IH2.
Qed.

Lemma toUpperCase_truthy (s : string) :
  truthy (JStr (toUpperCase s)) = truthy (JStr s).
Proof.
  destruct s as [|c [|c2 s]]; [done | done |].
  cbn [toUpperCase]. by destruct (is_long_s c c2), (is_sharp_s c c2).
Qed.

(** X5: Writing an ASCII status in upper case changes nothing of what the
    handler does. *)
Theorem status_case_insensitive (st : state) (req : payin_request) (s : string)
    (reply : capture_reply) :
  is_ascii_string s = true →
  payin_webhook st (with_status req (JStr (toUpperCase s))) reply =
  payin_webhook st (with_status req (JStr s)) reply.
Proof.
  intros Hs. destruct (toUpperCase_ascii s Hs) as [_ Hidemp].
  unfold payin_webhook, payin_handler, with_status. simpl verifyFintrixWebhook.
  cbn [order_id status amount utr message].
  rewrite toUpperCase_truthy, Hidemp. reflexivity.
Qed.

Lemma status_case_insensitive_witness :
  payin_webhook init (with_status success_1001 (JStr (toUpperCase "Success")))
    CaptureResolves =
  payin_webhook init (with_status success_1001 (JStr "Success")) CaptureResolves.
Proof.
  apply (status_case_insensitive init success_1001 "Success" CaptureResolves).
  reflexivity.
Defined.

(** *** A generated ref sent back by the gateway *)

(** X6: For an order id made of digits, the successful payment result that
    carries the ref generated at intake issues the capture call for the
    order id followed by the digits of the generation time. *)
Theorem generated_ref_capture_target (st : state) (orderId : string) (now : N)
    (hs : list (string * string)) (a u m : jsval) (reply : capture_reply) :
  all_digits orderId = true →
  out_calls
    (payin_webhook st (PayinRequest hs (JStr (refId orderId now)) (JStr "SUCCESS") a u m)
       reply)
  = [Capture (orderId +:+ dec now) a u m].
Proof.
  intros Hd.
  by destruct (payin_success st
                 (PayinRequest hs (JStr (refId orderId now)) (JStr "SUCCESS") a u m)
                 (refId orderId now) (orderId +:+ dec now) "SUCCESS" reply
                 eq_refl (match_LIK_refId orderId now Hd) eq_refl eq_refl) as [-> _].
Qed.

Lemma generated_ref_capture_target_witness :
  out_calls
    (payin_webhook init
       (PayinRequest [] (JStr (refId "1001" 1700000000000)) (JStr "SUCCESS")
          (JStr "25.00") (JStr "X1") JUndef) CaptureResolves)
  = [Capture ("1001" +:+ dec 1700000000000) (JStr "25.00") (JStr "X1") JUndef].
Proof.
  apply (generated_ref_capture_target init "1001" 1700000000000 []
           (JStr "25.00") (JStr "X1") JUndef CaptureResolves).
  reflexivity.
Defined.

(** ** The payment link, continued *)

(** X7: Fetching the link of one order leaves the links of all others. *)
Theorem get_payment_url_frame (st : state) (q : option string) (k : string) :
  q ≠ Some k →
  paymentUrls (out_state (get_payment_url st q)) !! k = paymentUrls st !! k.
Proof.
  intros Hq. unfold get_payment_url.
  destruct (truthy (map_get (paymentUrls st) q)); simpl; [|done].
  destruct q as [o|]; [|done]. apply lookup_delete_ne. congruence.
Qed.

Lemma get_payment_url_frame_witness :
  paymentUrls (out_state (get_payment_url linked_1001 (Some "1002"))) !! "1001"
  = paymentUrls linked_1001 !! "1001".
Proof. apply (get_payment_url_frame linked_1001 (Some "1002") "1001"). discriminate. Defined.

(** ** Order intake, continued *)

Section IntakeProperties.

Variable hmac_sha256_base64 : string → list Byte.byte → string.
Variable SHOPIFY_WEBHOOK_SECRET : string.
Variable JSON_parse : list Byte.byte → option order.

Abbreviation verify := (verifyShopifyWebhook hmac_sha256_base64 SHOPIFY_WEBHOOK_SECRET).
Abbreviation order_webhook :=
  (shopify_order_webhook hmac_sha256_base64 SHOPIFY_WEBHOOK_SECRET JSON_parse).
Abbreviation handle := (handle hmac_sha256_base64 SHOPIFY_WEBHOOK_SECRET JSON_parse).
Abbreviation exec := (exec hmac_sha256_base64 SHOPIFY_WEBHOOK_SECRET JSON_parse).
Abbreviation reachable := (reachable hmac_sha256_base64 SHOPIFY_WEBHOOK_SECRET JSON_parse).
Abbreviation actionable := (actionable hmac_sha256_base64 SHOPIFY_WEBHOOK_SECRET JSON_parse).

Lemma order_webhook_actionable (st : state) (req : shopify_request) (now : N)
    (reply : gw_reply) (o : order) (orderId : string) :
  actionable req o orderId →
  order_webhook st req now reply =
  match reply with
  | GwThrows =>
      send st 500 (Text "Server error")
        [CreateOrder (js_or (billing_address_phone o) (shipping_address_phone o))
           (total_price o) (refId orderId now) (order_status_url o)
           (js_or (note o) (JStr "Shopify order from likone.shop"))]
  | GwData data_status result =>
      if strict_eq_true data_status then
        match result with
        | None =>
            send st 500 (Text "Server error")
              [CreateOrder (js_or (billing_address_phone o) (shipping_address_phone o))
                 (total_price o) (refId orderId now) (order_status_url o)
                 (js_or (note o) (JStr "Shopify order from likone.shop"))]
        | Some paymentUrl =>
            send (State (<[orderId := paymentUrl]> (paymentUrls st))
                        (<[orderId := refId orderId now]> (orderIdToRefId st)))
              200 (Text "Order processed")
              [CreateOrder (js_or (billing_address_phone o) (shipping_address_phone o))
                 (total_price o) (refId orderId now) (order_status_url o)
                 (js_or (note o) (JStr "Shopify order from likone.shop"))]
        end
      else
        send st 200 (Text "Provider error")
          [CreateOrder (js_or (billing_address_phone o) (shipping_address_phone o))
             (total_price o) (refId orderId now) (order_status_url o)
             (js_or (note o) (JStr "Shopify order from likone.shop"))]
  end.
Proof.
  intros (Hv & Hp & Hf & Hm & Hid).
  exact (order_webhook_valid _ _ _ st req now reply o orderId Hv Hp Hf Hm Hid).
Qed.

Lemma order_webhook_calls_inv (st : state) (req : shopify_request) (now : N)
    (reply : gw_reply) :
  out_calls (order_webhook st req now reply) ≠ [] →
  ∃ o orderId, actionable req o orderId.
Proof.
  unfold actionable, shopify_order_webhook, order_handler.
  destruct (verify req) eqn:Hv; simpl; [|done].
  destruct (JSON_parse (raw_body req)) as [o|] eqn:Hp; simpl; [|done].
  destruct (strict_eq_str (financial_status o) "pending") eqn:Hf; simpl; [|done].
  destruct (truthy (js_or (billing_address_phone o) (shipping_address_phone o)))
    eqn:Hm; simpl; [|done].
  destruct (toString (id o)) as [orderId|] eqn:Hid; simpl; [|done].
  intros _. by exists o, orderId.
Qed.

(** X8: The gateway is called exactly for the orders that are taken in: the
    request is verified, its body parses, the order is pending, one of the
    two phone fields is set and the order has an id. *)
Theorem order_webhook_calls_gateway_iff (st : state) (req : shopify_request)
    (now : N) (reply : gw_reply) :
  out_calls (order_webhook st req now reply) ≠ [] ↔
  ∃ o orderId, actionable req o orderId.
Proof.
  split; [apply order_webhook_calls_inv|].
  intros (o & orderId & Hact).
  rewrite (order_webhook_actionable st req now reply o orderId Hact).
  destruct reply as [|s [url|]]; simpl; [done | |];
    destruct (strict_eq_true s); done.
Qed.

Lemma strict_eq_true_inv (v : jsval) : strict_eq_true v = true → v = JBool true.
Proof. by destruct v as [| |[]| |]. Qed.

(** X9: After an intake that the gateway answered with a link, the first
    request for the order's payment link returns that link, and the next
    returns null. *)
Theorem intake_then_take (st : state) (req : shopify_request) (now : N)
    (o : order) (orderId : string) (url : jsval) :
  actionable req o orderId → truthy url = true →
  out_response
    (get_payment_url
       (out_state (order_webhook st req now (GwData (JBool true) (Some url))))
       (Some orderId))
  = Some (Response 200 (JsonPaymentUrl url)) ∧
  out_response
    (get_payment_url
       (out_state
          (get_payment_url
             (out_state (order_webhook st req now (GwData (JBool true) (Some url))))
             (Some orderId)))
       (Some orderId))
  = Some (Response 200 (JsonPaymentUrl JNull)).
Proof.
  intros Hact Hurl.
  rewrite (order_webhook_actionable st req now _ o orderId Hact). simpl.
  unfold get_payment_url. simpl.
  rewrite lookup_insert_eq. simpl. rewrite Hurl. simpl.
  rewrite lookup_delete_eq. simpl. done.
Qed.

(** X10: When the gateway reports success with a link that is empty or
    missing, the intake is answered as processed, yet the client is told
    there is no link, and stays told so on every later request. *)
Theorem falsy_link_never_delivered (st : state) (req : shopify_request) (now : N)
    (o : order) (orderId : string) (url : jsval) :
  actionable req o orderId → truthy url = false →
  out_response (order_webhook st req now (GwData (JBool true) (Some url)))
  = Some (Response 200 (Text "Order processed")) ∧
  get_payment_url
    (out_state (order_webhook st req now (GwData (JBool true) (Some url))))
    (Some orderId)
  = send (out_state (order_webhook st req now (GwData (JBool true) (Some url))))
      200 (JsonPaymentUrl JNull) [].
Proof.
  intros Hact Hurl.
  rewrite (order_webhook_actionable st req now _ o orderId Hact). simpl.
  split; [done|]. unfold get_payment_url. simpl.
  rewrite lookup_insert_eq. simpl. by rewrite Hurl.
Qed.

(** X11: Of two completed intakes for one order id only the second is kept:
    the maps are what the second alone would have left. *)
Theorem last_intake_wins (st : state) (req1 req2 : shopify_request)
    (now1 now2 : N) (reply1 reply2 : gw_reply) (o1 o2 : order) (orderId : string) :
  actionable req1 o1 orderId → actionable req2 o2 orderId →
  gw_success reply2 = true →
  out_state
    (order_webhook (out_state (order_webhook st req1 now1 reply1)) req2 now2 reply2)
  = out_state (order_webhook st req2 now2 reply2).
Proof.
  intros H1 H2 Hs2.
  rewrite (order_webhook_actionable _ req2 now2 reply2 o2 orderId H2).
  rewrite (order_webhook_actionable st req2 now2 reply2 o2 orderId H2).
  rewrite (order_webhook_actionable st req1 now1 reply1 o1 orderId H1).
  destruct reply2 as [|s2 [url2|]]; simpl in Hs2; try done.
  rewrite Hs2. simpl.
  destruct reply1 as [|s1 [url1|]]; simpl; try done;
    destruct (strict_eq_true s1); simpl; try done.
  by rewrite !insert_insert_eq.
Qed.

(** X12: An intake leaves what is stored for every other order id. *)
Theorem order_webhook_frame (st : state) (req : shopify_request) (now : N)
    (reply : gw_reply) (k : string) :
  (∀ o, JSON_parse (raw_body req) = Some o → toString (id o) ≠ Some k) →
  paymentUrls (out_state (order_webhook st req now reply)) !! k = paymentUrls st !! k ∧
  orderIdToRefId (out_state (order_webhook st req now reply)) !! k
  = orderIdToRefId st !! k.
Proof.
  intros Hk. unfold shopify_order_webhook, order_handler.
  destruct (verify req); simpl; [|done].
  destruct (JSON_parse (raw_body req)) as [o|] eqn:Hp; simpl; [|done].
  specialize (Hk o eq_refl).
  repeat (case_match; simpl; try done).
  rewrite !lookup_insert_ne by congruence. done.
Qed.

(** ** The server as a whole, continued *)

Lemma handle_links_have_refs (st : state) (ev : event) :
  links_have_refs st → links_have_refs (out_state (handle st ev)).
Proof.
  intros Hst. destruct ev as [req now reply | q | req reply | q reply]; simpl.
  - unfold shopify_order_webhook, order_handler.
    repeat (case_match; simpl; try done).
    intros k. simpl. rewrite !lookup_insert. case_decide; [by eauto | apply Hst].
  - intros k. rewrite get_payment_url_keeps_refs.
    unfold get_payment_url. case_match; simpl; [|apply Hst].
    destruct q as [orderId|]; [|apply Hst].
    rewrite lookup_delete. case_decide; [by intros [? ?] | apply Hst].
  - by rewrite payin_keeps_state.
  - by rewrite check_status_keeps_state.
Qed.

Lemma exec_links_have_refs (evs : list event) (st : state) :
  links_have_refs st → links_have_refs (exec st evs).
Proof.
  revert st. induction evs as [|ev evs IH]; intros st Hst; [done|].
  change (links_have_refs (exec (out_state (handle st ev)) evs)).
  by apply IH, handle_links_have_refs.
Qed.

(** X13: Whatever requests the server has handled, an order id with a stored
    payment link also has a stored ref: the status query never answers 404
    for an order whose link is still waiting to be fetched. *)
Theorem reachable_links_have_refs (st : state) (k : string) (reply : status_reply) :
  reachable st → is_Some (paymentUrls st !! k) →
  is_Some (orderIdToRefId st !! k) ∧
  (code <$> out_response (check_status st (Some k) reply)) ≠ Some 404.
Proof.
  intros Hreach Hlink.
  assert (links_have_refs st) as Hinv.
  { destruct Hreach as [evs <-]. apply exec_links_have_refs.
    intros k'. unfold init. simpl. rewrite lookup_empty. by intros [? ?]. }
  destruct (Hinv k Hlink) as [ref Href]. split; [by eexists|].
  destruct (reachable_refs_generated _ _ _ st Hreach k ref Href) as [now ->].
  exact (proj2 (check_status_found st k _ reply Href (refId_nonempty _ _))).
Qed.

(** X14: Handling one request makes at most one outbound call, of the kind
    that belongs to the route. *)
Theorem one_call_per_request (st : state) (ev : event) :
  out_calls (handle st ev) = [] ∨
  ∃ c, out_calls (handle st ev) = [c] ∧ call_of_route ev c = true.
Proof.
  destruct ev as [req now reply | q | req reply | q reply]; simpl.
  - unfold shopify_order_webhook, order_handler.
    repeat (case_match; simpl; try (by left)); right; by eexists.
  - left. apply get_payment_url_no_calls.
  - unfold payin_webhook, payin_handler. simpl.
    repeat (case_match; simpl; try (by left)); right; by eexists.
  - unfold check_status.
    repeat (case_match; simpl; try (by left)); right; by eexists.
Qed.

Lemma order_webhook_keeps_unless_success (st : state) (req : shopify_request)
    (now : N) (reply : gw_reply) :
  gw_success reply = false → out_state (order_webhook st req now reply) = st.
Proof.
  unfold shopify_order_webhook, order_handler, gw_success.
  intros Hs. repeat (case_match; simpl in *; try done); congruence.
Qed.

(** X15: The maps change only when an intake gets the gateway's success reply
    or when a stored link is fetched; payment results, status queries and
    rejected requests leave them as they are. *)
Theorem maps_change_only_by_intake_or_take (st : state) (ev : event) :
  out_state (handle st ev) ≠ st →
  (∃ req now reply, ev = OrderWebhook req now reply ∧ gw_success reply = true) ∨
  (∃ k link, ev = GetPaymentUrl (Some k) ∧ paymentUrls st !! k = Some link ∧
             truthy link = true).
Proof.
  destruct ev as [req now reply | q | req reply | q reply]; simpl; intros Hne.
  - left. exists req, now, reply. split; [done|].
    destruct (gw_success reply) eqn:Hs; [done|]. destruct Hne.
    by apply order_webhook_keeps_unless_success.
  - right. revert Hne. unfold get_payment_url.
    destruct q as [k|]; simpl.
    + destruct (paymentUrls st !! k) as [link|] eqn:Hl; simpl; [|done].
      destruct (truthy link) eqn:Ht; simpl; [|done]. intros _. by exists k, link.
    + done.
  - by rewrite payin_keeps_state in Hne.
  - by rewrite check_status_keeps_state in Hne.
Qed.

End IntakeProperties.

(** ** The example order through the further properties *)

Lemma demo_actionable :
  actionable demo_hmac demo_secret demo_parse signed_1001 order_1001 "1001".
Proof. unfold actionable. repeat split; vm_compute; reflexivity. Qed.

Lemma intake_then_take_witness :
  out_response
    (get_payment_url
       (out_state
          (shopify_order_webhook demo_hmac demo_secret demo_parse init signed_1001
             1700000000000 (GwData (JBool true) (Some link_1001))))
       (Some "1001"))
  = Some (Response 200 (JsonPaymentUrl link_1001)) ∧
  out_response
    (get_payment_url
       (out_state
          (get_payment_url
             (out_state
                (shopify_order_webhook demo_hmac demo_secret demo_parse init signed_1001
                   1700000000000 (GwData (JBool true) (Some link_1001))))
             (Some "1001")))
       (Some "1001"))
  = Some (Response 200 (JsonPaymentUrl JNull)).
Proof.
  apply (intake_then_take demo_hmac demo_secret demo_parse init signed_1001
           1700000000000 order_1001 "1001" link_1001).
  - unfold actionable. repeat split; vm_compute; reflexivity.
  - reflexivity.
Defined.

Lemma falsy_link_never_delivered_witness :
  out_response
    (shopify_order_webhook demo_hmac demo_secret demo_parse init signed_1001
       1700000000000 (GwData (JBool true) (Some JUndef)))
  = Some (Response 200 (Text "Order processed")) ∧
  get_payment_url
    (out_state
       (shopify_order_webhook demo_hmac demo_secret demo_parse init signed_1001
          1700000000000 (GwData (JBool true) (Some JUndef))))
    (Some "1001")
  = send
      (out_state
         (shopify_order_webhook demo_hmac demo_secret demo_parse init signed_1001
            1700000000000 (GwData (JBool true) (Some JUndef))))
      200 (JsonPaymentUrl JNull) [].
Proof.
  apply (falsy_link_never_delivered demo_hmac demo_secret demo_parse init signed_1001
           1700000000000 order_1001 "1001" JUndef).
  - unfold actionable. repeat split; vm_compute; reflexivity.
  - reflexivity.
Defined.

Lemma last_intake_wins_witness :
  out_state
    (shopify_order_webhook demo_hmac demo_secret demo_parse
       (out_state
          (shopify_order_webhook demo_hmac demo_secret demo_parse init signed_1001
             1700000000000 gw_ok))
       signed_1001 1700000000005 gw_ok)
  = out_state
      (shopify_order_webhook demo_hmac demo_secret demo_parse init signed_1001
         1700000000005 gw_ok).
Proof.
  apply (last_intake_wins demo_hmac demo_secret demo_parse init signed_1001 signed_1001
           1700000000000 1700000000005 gw_ok gw_ok order_1001 order_1001 "1001").
  - unfold actionable. repeat split; vm_compute; reflexivity.
  - unfold actionable. repeat split; vm_compute; reflexivity.
  - reflexivity.
Defined.

Lemma order_webhook_frame_witness :
  paymentUrls
    (out_state
       (shopify_order_webhook demo_hmac demo_secret demo_parse linked_1001 signed_1001
          1700000000000 gw_ok)) !! "1002"
  = paymentUrls linked_1001 !! "1002" ∧
  orderIdToRefId
    (out_state
       (shopify_order_webhook demo_hmac demo_secret demo_parse linked_1001 signed_1001
          1700000000000 gw_ok)) !! "1002"
  = orderIdToRefId linked_1001 !! "1002".
Proof.
  apply (order_webhook_frame demo_hmac demo_secret demo_parse linked_1001 signed_1001
           1700000000000 gw_ok "1002").
  intros o Ho. vm_compute in Ho. injection Ho as <-. vm_compute. discriminate.
Defined.

Lemma reachable_links_have_refs_witness :
  is_Some
    (orderIdToRefId (demo_exec init [OrderWebhook signed_1001 1700000000000 gw_ok])
       !! "1001") ∧
  (code <$> out_response
     (check_status (demo_exec init [OrderWebhook signed_1001 1700000000000 gw_ok])
        (Some "1001") StatusThrows)) ≠ Some 404.
Proof.
  apply (reachable_links_have_refs demo_hmac demo_secret demo_parse
           (demo_exec init [OrderWebhook signed_1001 1700000000000 gw_ok])
           "1001" StatusThrows).
  - exists [OrderWebhook signed_1001 1700000000000 gw_ok]. reflexivity.
  - vm_compute. eexists. reflexivity.
Defined.

Lemma maps_change_only_by_intake_or_take_witness :
  (∃ req now reply,
     GetPaymentUrl (Some "1001") = OrderWebhook req now reply ∧
     gw_success reply = true) ∨
  (∃ k link, GetPaymentUrl (Some "1001") = GetPaymentUrl (Some k) ∧
             paymentUrls linked_1001 !! k = Some link ∧ truthy link = true).
Proof.
  apply (maps_change_only_by_intake_or_take demo_hmac demo_secret demo_parse
           linked_1001 (GetPaymentUrl (Some "1001"))).
  intros H. apply (f_equal (λ st, paymentUrls st !! "1001")) in H.
  vm_compute in H. discriminate H.
Defined.

(** ** The earlier server *)

Lemma append_empty_r (s : string) : s +:+ "" = s.
Proof. induction s as [|c s IH]; simpl; [done | by rewrite IH]. Qed.

Lemma refId_longer (orderId : string) (now : N) : "LIK" +:+ orderId ≠ refId orderId now.
Proof.
  unfold refId. intros H. apply (f_equal String.length) in H.
  rewrite !append_length in H.
  pose proof (dec_nonempty now) as Hne. destruct (dec now); [done | simpl in H; lia].
Qed.

(** X16: The earlier status query asks the gateway about [LIK] followed by the
    order id, for every order id and without looking anything up; that is
    never a ref the intake generated, which ends in the generation time. *)
Theorem legacy_status_query_ref (urls : gmap string jsval) (orderId : string)
    (reply : status_reply) (now : N) :
  LegacyServer.out_calls (LegacyServer.check_status urls (Some orderId) reply)
  = [CheckOrderStatus ("LIK" +:+ orderId)] ∧
  (CheckOrderStatus (refId orderId now)
   ∉ LegacyServer.out_calls (LegacyServer.check_status urls (Some orderId) reply)) ∧
  LegacyServer.out_urls (LegacyServer.check_status urls (Some orderId) reply) = urls.
Proof.
  assert (LegacyServer.out_calls (LegacyServer.check_status urls (Some orderId) reply)
          = [CheckOrderStatus ("LIK" +:+ orderId)]) as Hcalls.
  { unfold LegacyServer.check_status. simpl default.
    rewrite append_empty_r. by destruct reply. }
  split; [exact Hcalls|]. split.
  - rewrite Hcalls. intros H%list_elem_of_singleton.
    apply (refId_longer orderId now). congruence.
  - unfold LegacyServer.check_status. by destruct reply.
Qed.

Lemma drop_last_append (o d : string) :
  d ≠ "" → Legacy.drop_last (o +:+ d) = o +:+ Legacy.drop_last d.
Proof.
  intros Hd. induction o as [|c o IH]; [done|].
  simpl. rewrite IH.
  pose proof (append_nonempty_r o d Hd) as Hne.
  by destruct (o +:+ d).
Qed.

(** X17: For an order id made of digits the earlier pattern takes the order id
    and all of the timestamp but its last digit. *)
Theorem legacy_extraction_of_generated_ref (orderId : string) (now : N) :
  all_digits orderId = true → orderId ≠ "" →
  Legacy.match_LIK (refId orderId now)
  = Some (orderId +:+ Legacy.drop_last (dec now)).
Proof.
  intros Hd Hne. rewrite refId_unfold.
  unfold Legacy.match_LIK, Legacy.match_LIK_here.
  rewrite take_digits_all by (apply all_digits_append; [done | apply dec_digits]).
  rewrite <- (drop_last_append orderId (dec now) (dec_nonempty now)).
  pose proof (dec_nonempty now) as Hdec.
  destruct orderId as [|a o]; [done|]. simpl.
  pose proof (append_nonempty_r o (dec now) Hdec) as Hne'.
  by destruct (o +:+ dec now).
Qed.

Lemma legacy_extraction_of_generated_ref_witness :
  Legacy.match_LIK (refId "1001" 1700000000000)
  = Some ("1001" +:+ Legacy.drop_last (dec 1700000000000)).
Proof.
  apply (legacy_extraction_of_generated_ref "1001" 1700000000000);
    [reflexivity | discriminate].
Defined.

(** X18: The earlier payment-result handler answers Success only when the
    capture call went out and the storefront's reply says the transaction
    succeeded. *)
Theorem legacy_success_means_captured (urls : gmap string jsval)
    (req : payin_request) (reply : LegacyServer.capture_reply) :
  LegacyServer.out_response (LegacyServer.payin_webhook urls req reply)
  = Some (Response 200 (Text "Success")) ↔
  LegacyServer.out_calls (LegacyServer.payin_webhook urls req reply) ≠ [] ∧
  ∃ v, reply = LegacyServer.CaptureData (Some v) ∧ strict_eq_str v "success" = true.
Proof.
  unfold LegacyServer.payin_webhook.
  repeat (case_match; simpl; try (split; [done | by intros [? (? & ? & ?)]])).
  all: try (split; [done | intros [_ (v & [= <-] & Hv)]; congruence]).
  split; [|done]. intros _. split; [done | by eexists].
Qed.

(** X19: On a request that both versions verify and whose body parses to
    the same order, the earlier intake answers and stores the link as the
    current one does, and its gateway call is the current one's with an
    empty [remark2] added; the current one also stores the ref. *)
Theorem intake_agrees_with_legacy
    (hmac : string → list Byte.byte → string) (hmac' : string → string → string)
    (secret : string) (JSON_parse : list Byte.byte → option order)
    (stringify : list Byte.byte → string) (body_parsed : list Byte.byte → order)
    (st : state) (req : shopify_request) (now : N) (reply : gw_reply) :
  verifyShopifyWebhook hmac secret req = Next →
  Legacy.verifyShopifyWebhook hmac' secret stringify req = true →
  JSON_parse (raw_body req) = Some (body_parsed (raw_body req)) →
  LegacyServer.in_urls
    (LegacyServer.shopify_order_webhook hmac' secret stringify body_parsed
       (paymentUrls st) req now reply)
  = paymentUrls (out_state (shopify_order_webhook hmac secret JSON_parse st req now reply)) ∧
  LegacyServer.in_response
    (LegacyServer.shopify_order_webhook hmac' secret stringify body_parsed
       (paymentUrls st) req now reply)
  = out_response (shopify_order_webhook hmac secret JSON_parse st req now reply) ∧
  LegacyServer.without_remark2 <$>
    LegacyServer.in_calls
      (LegacyServer.shopify_order_webhook hmac' secret stringify body_parsed
         (paymentUrls st) req now reply)
  = out_calls (shopify_order_webhook hmac secret JSON_parse st req now reply) ∧
  Forall (λ c, LegacyServer.remark2_of c = "")
    (LegacyServer.in_calls
       (LegacyServer.shopify_order_webhook hmac' secret stringify body_parsed
          (paymentUrls st) req now reply)).
Proof.
  intros Hv Hv' Hp.
  unfold LegacyServer.shopify_order_webhook, shopify_order_webhook, order_handler.
  rewrite Hv, Hv', Hp. simpl.
  repeat (case_match; simpl; try done);
    repeat split; try done; by repeat constructor.
Qed.

(** X20: When writing the parsed body out again gives back the bytes received,
    the earlier verifier accepts exactly the requests the current one
    accepts. *)
Theorem verifiers_agree_on_canonical_body
    (hmac : string → list Byte.byte → string) (secret : string)
    (stringify : list Byte.byte → string) (req : shopify_request) :
  list_byte_of_string (stringify (raw_body req)) = raw_body req →
  Legacy.verifyShopifyWebhook (λ key data, hmac key (list_byte_of_string data))
    secret stringify req = true ↔
  verifyShopifyWebhook hmac secret req = Next.
Proof.
  intros Hcanon. rewrite legacy_verify_spec. simpl. rewrite Hcanon.
  split; [apply verify_match|].
  intros Hv.
  destruct (decide (hmac_header req = Some (hmac secret (raw_body req))))
    as [|Hne]; [done|].
  by rewrite (verify_mismatch _ _ _ Hne) in Hv.
Qed.

Lemma intake_agrees_with_legacy_witness :
  LegacyServer.in_urls
    (LegacyServer.shopify_order_webhook demo_hmac_string demo_secret
       string_of_list_byte (λ _, order_1001) (paymentUrls init) signed_1001
       1700000000000 gw_ok)
  = paymentUrls
      (out_state
         (shopify_order_webhook demo_hmac demo_secret demo_parse init signed_1001
            1700000000000 gw_ok)) ∧
  LegacyServer.in_response
    (LegacyServer.shopify_order_webhook demo_hmac_string demo_secret
       string_of_list_byte (λ _, order_1001) (paymentUrls init) signed_1001
       1700000000000 gw_ok)
  = out_response
      (shopify_order_webhook demo_hmac demo_secret demo_parse init signed_1001
         1700000000000 gw_ok) ∧
  LegacyServer.without_remark2 <$>
    LegacyServer.in_calls
      (LegacyServer.shopify_order_webhook demo_hmac_string demo_secret
         string_of_list_byte (λ _, order_1001) (paymentUrls init) signed_1001
         1700000000000 gw_ok)
  = out_calls
      (shopify_order_webhook demo_hmac demo_secret demo_parse init signed_1001
         1700000000000 gw_ok) ∧
  Forall (λ c, LegacyServer.remark2_of c = "")
    (LegacyServer.in_calls
       (LegacyServer.shopify_order_webhook demo_hmac_string demo_secret
          string_of_list_byte (λ _, order_1001) (paymentUrls init) signed_1001
          1700000000000 gw_ok)).
Proof.
  apply (intake_agrees_with_legacy demo_hmac demo_hmac_string demo_secret
           demo_parse string_of_list_byte (λ _, order_1001) init signed_1001
           1700000000000 gw_ok); vm_compute; reflexivity.
Defined.

Lemma verifiers_agree_on_canonical_body_witness :
  Legacy.verifyShopifyWebhook (λ key data, demo_hmac key (list_byte_of_string data))
    demo_secret string_of_list_byte signed_1001 = true ↔
  verifyShopifyWebhook demo_hmac demo_secret signed_1001 = Next.
Proof.
  apply (verifiers_agree_on_canonical_body demo_hmac demo_secret string_of_list_byte
           signed_1001).
  vm_compute. reflexivity.
Defined.

(** ** The order webhook route as a whole *)

Lemma express_raw_buffer (req : order_webhook_request) (b : list Byte.byte) :
  express_raw req = RawBuffer b → b = body_bytes req.
Proof. unfold express_raw. repeat case_match; congruence. Qed.




(** A status written with the long s is read as success, as JavaScript's
    [toUpperCase] has it. *)
Example long_s_status_captures :
  out_calls
    (payin_webhook init
       (PayinRequest [] (JStr "LIK42")
          (JStr (String (ascii_of_nat 197) (String (ascii_of_nat 191) "uccess")))
          JUndef JUndef JUndef) CaptureResolves)
  = [Capture "42" JUndef JUndef JUndef].
Proof. reflexivity. Qed.
